(** * Pointer-generator forward pass: a shallow embedding and its properties

    The program is [model/text_summarization/pointer_generator.py]: four
    [torch.nn] modules ([Encoder], [Attention], [Decoder],
    [PointerGeneratorNetwork]) whose [forward] methods compose dense tensor
    operations.  Tensors are modelled as a shape together with the row-major
    list of their entries, over the real numbers; every operation that can
    raise in PyTorch returns a [result].

    The tensor operations and layers are modelled at the ranks at which the
    program applies them on its documented inputs (token matrices
    [[length, batch]]); PyTorch accepts some of them at other ranks as well,
    and the model rejects those.  Learned weights are functions from indices
    to reals, read only inside the shape the constructor fixes. *)

From Stdlib Require Import List Arith Lia ZArith Bool.
From Stdlib Require Import Reals Lra.
From Stdlib Require String.
Import ListNotations.

(** ** Results of fallible operations *)

(** The exceptions the forward pass can raise. *)
Inductive error : Type :=
| ShapeError    (* RuntimeError: sizes that do not fit an operation *)
| IndexError    (* an index outside its range *)
| ValueError.   (* unpacking a shape of the wrong rank *)

Inductive result (A : Type) : Type :=
| Ok (a : A)
| Err (e : error).

Arguments Ok {A} a.
Arguments Err {A} e.

Definition bind {A B : Type} (r : result A) (k : A -> result B) : result B :=
  match r with
  | Ok a => k a
  | Err e => Err e
  end.

Notation "x <- e1 ;; e2" := (bind e1 (fun x => e2))
  (at level 61, e1 at next level, right associativity).
Notation "' pat <- e1 ;; e2" := (bind e1 (fun x => match x with pat => e2 end))
  (at level 61, pat pattern, e1 at next level, right associativity).

(** ** Finite sums of reals and tabulated lists *)

Open Scope R_scope.

(** [rsum n f] is [f 0 + ... + f (n-1)]. *)
Fixpoint rsum (n : nat) (f : nat -> R) : R :=
  match n with
  | O => 0
  | S m => rsum m f + f m
  end.

(** [tab n f] is the list [f 0; ...; f (n-1)]. *)
Definition tab {A : Type} (n : nat) (f : nat -> A) : list A := map f (seq 0 n).

(** Logistic function, as in the gates of [nn.LSTM]. *)
Definition sigmoid (x : R) : R := 1 / (1 + exp (- x)).

(** ** Tensors *)

(** A float tensor: its shape and its entries in row-major (logical) order. *)
Record tensor : Type := mkT { shape : list nat; data : list R }.

(** An integer tensor (token ids). *)
Record ltensor : Type := mkL { lshape : list nat; ldata : list Z }.

Definition numel (sh : list nat) : nat := fold_right Nat.mul 1%nat sh.

(** Entry [k] of the row-major enumeration. *)
Definition get (t : tensor) (k : nat) : R := nth k (data t) 0.

Definition lget (t : ltensor) (k : nat) : Z := nth k (ldata t) 0%Z.

(** Index used when a dimension of size [d] is read at position [i] under
    broadcasting: a dimension of size one is repeated. *)
Definition bsel (d i : nat) : nat := if (d =? 1)%nat then 0%nat else i.

(** Two sizes broadcast together when they agree or one of them is one. *)
Definition bcompat (a b : nat) : bool := ((a =? b) || (a =? 1) || (b =? 1))%nat.

Definition bdim (a b : nat) : nat := if (a =? 1)%nat then b else a.

Module torch.

(** [torch.zeros(shape)] *)
Definition zeros (sh : list nat) : tensor := mkT sh (tab (numel sh) (fun _ => 0)).

(** [torch.zeros_like(x, dtype=torch.float)] *)
Definition zeros_like (x : ltensor) : tensor := zeros (lshape x).

(** [t.view(-1, cols)] on the logical layout.  The size marked [-1] is
    inferred; the call raises when it cannot be.  (PyTorch also requires the
    strides to fit; the one view of a permuted tensor in this program,
    [attention.view(-1, sequence_len)], only drops a dimension of size one,
    which fits.) *)
Definition view2 (cols : nat) (t : tensor) : result tensor :=
  match cols with
  | O => Err ShapeError
  | S _ =>
      if (numel (shape t) mod cols =? 0)%nat
      then Ok (mkT [(numel (shape t) / cols)%nat; cols] (data t))
      else Err ShapeError
  end.

(** [t.unsqueeze(0)] *)
Definition unsqueeze0 (t : tensor) : result tensor :=
  Ok (mkT (1%nat :: shape t) (data t)).

(** [t.unsqueeze(1)] *)
Definition unsqueeze1 (t : tensor) : result tensor :=
  match shape t with
  | [] => Err IndexError
  | d :: rest => Ok (mkT (d :: 1%nat :: rest) (data t))
  end.

(** [t.permute(1, 0)] *)
Definition permute10 (t : tensor) : result tensor :=
  match shape t with
  | [r; c] =>
      Ok (mkT [c; r]
            (tab (c * r) (fun k => get t ((k mod r) * c + k / r))))
  | _ => Err ShapeError
  end.

(** [t.permute(1, 0, 2)], which is also [t.transpose(0, 1)] at rank three. *)
Definition permute102 (t : tensor) : result tensor :=
  match shape t with
  | [a; b; c] =>
      Ok (mkT [b; a; c]
            (tab (b * a * c)
               (fun k => get t ((((k / c) mod a) * b + k / (a * c)) * c + k mod c))))
  | _ => Err ShapeError
  end.

(** [t.expand(s0, s1, s2)] of a rank-three tensor. *)
Definition expand3 (s0 s1 s2 : nat) (t : tensor) : result tensor :=
  match shape t with
  | [d0; d1; d2] =>
      if (((d0 =? s0) || (d0 =? 1)) && ((d1 =? s1) || (d1 =? 1))
          && ((d2 =? s2) || (d2 =? 1)))%nat%bool
      then Ok (mkT [s0; s1; s2]
                 (tab (s0 * s1 * s2)
                    (fun k =>
                       get t ((bsel d0 (k / (s1 * s2)) * d1
                               + bsel d1 ((k / s2) mod s1)) * d2
                              + bsel d2 (k mod s2)))))
      else Err ShapeError
  | _ => Err ShapeError
  end.

(** [a + b] for matrices, with broadcasting. *)
Definition add (a b : tensor) : result tensor :=
  match shape a, shape b with
  | [r1; c1], [r2; c2] =>
      if (bcompat r1 r2 && bcompat c1 c2)%bool
      then
        let r := bdim r1 r2 in
        let c := bdim c1 c2 in
        Ok (mkT [r; c]
              (tab (r * c)
                 (fun k =>
                    get a (bsel r1 (k / c) * c1 + bsel c1 (k mod c))
                    + get b (bsel r2 (k / c) * c2 + bsel c2 (k mod c)))))
      else Err ShapeError
  | _, _ => Err ShapeError
  end.

(** [torch.cat((a, b), dim=1)] for matrices. *)
Definition cat1 (a b : tensor) : result tensor :=
  match shape a, shape b with
  | [r1; c1], [r2; c2] =>
      if (r1 =? r2)%nat
      then Ok (mkT [r1; (c1 + c2)%nat]
                 (tab (r1 * (c1 + c2))
                    (fun k =>
                       let i := (k / (c1 + c2))%nat in
                       let j := (k mod (c1 + c2))%nat in
                       if (j <? c1)%nat then get a (i * c1 + j)
                       else get b (i * c2 + (j - c1)))))
      else Err ShapeError
  | _, _ => Err ShapeError
  end.

(** [torch.bmm(a, b)]: a batch of matrix products. *)
Definition bmm (a b : tensor) : result tensor :=
  match shape a, shape b with
  | [n1; p; m1], [n2; m2; q] =>
      if ((n1 =? n2) && (m1 =? m2))%nat%bool
      then Ok (mkT [n1; p; q]
                 (tab (n1 * p * q)
                    (fun k =>
                       let i := (k / (p * q))%nat in
                       let u := ((k / q) mod p)%nat in
                       let v := (k mod q)%nat in
                       rsum m1 (fun l => get a ((i * p + u) * m1 + l)
                                         * get b ((i * m2 + l) * q + v)))))
      else Err ShapeError
  | _, _ => Err ShapeError
  end.

(** [batch, sequence_len, hidden_size = t.shape] *)
Definition shape3 (t : tensor) : result (nat * nat * nat) :=
  match shape t with
  | [a; b; c] => Ok (a, b, c)
  | _ => Err ValueError
  end.

(** [x[i, :]] on an integer matrix. *)
Definition row (x : ltensor) (i : nat) : result ltensor :=
  match lshape x with
  | [r; c] =>
      if (i <? r)%nat
      then Ok (mkL [c] (tab c (fun j => lget x (i * c + j))))
      else Err IndexError
  | _ => Err IndexError
  end.

End torch.

(** ** The layers of [torch.nn] the program uses *)

Fixpoint shape_eqb (a b : list nat) : bool :=
  match a, b with
  | [], [] => true
  | x :: a', y :: b' => ((x =? y)%nat && shape_eqb a' b')%bool
  | _, _ => false
  end.

Module nn.

(** [nn.Linear(in_features, out_features)]: [y = x W^T + b] on the rows of a
    matrix.  The learned [weight] has shape [[out_features, in_features]]
    and is read only inside that range. *)
Module Linear.
Record t : Type := mk
  { in_features : nat;
    out_features : nat;
    weight : nat -> nat -> R;
    bias : nat -> R }.

(** The learned parameters of one layer. *)
Record parameters : Type := mkP
  { p_weight : nat -> nat -> R;
    p_bias : nat -> R }.

Definition init (i o : nat) (p : parameters) : t :=
  mk i o (p_weight p) (p_bias p).

Definition forward (l : t) (x : tensor) : result tensor :=
  match shape x with
  | [n; k] =>
      if (k =? in_features l)%nat
      then
        let o := out_features l in
        Ok (mkT [n; o]
              (tab (n * o)
                 (fun idx =>
                    rsum k (fun i => weight l (idx mod o) i * get x ((idx / o) * k + i))
                    + bias l (idx mod o))))
      else Err ShapeError
  | _ => Err ShapeError
  end.
End Linear.

(** [nn.Embedding(num_embeddings, embedding_dim, padding_idx=0)]: a table
    lookup.  [padding_idx] only fixes row 0 of the table at construction and
    during training; the lookup itself treats id 0 like any other id. *)
Module Embedding.
Record t : Type := mk
  { num_embeddings : nat;
    embedding_dim : nat;
    weight : nat -> nat -> R }.

Definition in_range (e : t) (z : Z) : bool :=
  ((0 <=? z)%Z && (z <? Z.of_nat (num_embeddings e))%Z)%bool.

Definition forward (e : t) (x : ltensor) : result tensor :=
  if forallb (in_range e) (ldata x)
  then
    let d := embedding_dim e in
    Ok (mkT (lshape x ++ [d])
          (tab (numel (lshape x) * d)
             (fun k => weight e (Z.to_nat (lget x (k / d))) (k mod d))))
  else Err IndexError.
End Embedding.

(** [nn.Tanh()] *)
Module Tanh.
Definition forward (x : tensor) : result tensor :=
  Ok (mkT (shape x) (map tanh (data x))).
End Tanh.

(** [nn.ReLU()] *)
Module ReLU.
Definition forward (x : tensor) : result tensor :=
  Ok (mkT (shape x) (map (Rmax 0) (data x))).
End ReLU.

(** [nn.Softmax(dim)], for the two values of [dim] the program uses. *)
Module Softmax.
(** [dim=0]: entries that differ only in their first index are normalised
    together. *)
Definition forward0 (x : tensor) : result tensor :=
  match shape x with
  | r :: rest =>
      let c := numel rest in
      Ok (mkT (r :: rest)
            (tab (r * c)
               (fun k => exp (get x k)
                         / rsum r (fun i => exp (get x (i * c + k mod c))))))
  | [] => Err IndexError
  end.

(** [dim=1] on a matrix: every row is normalised. *)
Definition forward1 (x : tensor) : result tensor :=
  match shape x with
  | [r; c] =>
      Ok (mkT [r; c]
            (tab (r * c)
               (fun k => exp (get x k)
                         / rsum c (fun j => exp (get x ((k / c) * c + j))))))
  | _ => Err IndexError
  end.
End Softmax.

(** [nn.LSTM(input_size, hidden_size, bidirectional)], one layer, with the
    equations of the PyTorch documentation; gate rows are ordered
    input, forget, cell, output.  The input is [[seq_len, batch, input_size]];
    an empty sequence and an initial state of the wrong shape are rejected;
    without an initial state the layer starts from zeros. *)
Module LSTM.
Record direction : Type := mkDir
  { weight_ih : nat -> nat -> R;
    weight_hh : nat -> nat -> R;
    bias_ih : nat -> R;
    bias_hh : nat -> R }.

Record t : Type := mk
  { input_size : nat;
    hidden_size : nat;
    bidirectional : bool;
    l0 : direction;
    l0_reverse : direction }.

Definition num_directions (l : t) : nat := if bidirectional l then 2 else 1.

(** Pre-activation of gate row [row] for one batch element with input [x]
    and previous hidden vector [h]. *)
Definition gate (l : t) (w : direction) (x h : nat -> R) (row : nat) : R :=
  rsum (input_size l) (fun k => weight_ih w row k * x k) + bias_ih w row
  + rsum (hidden_size l) (fun k => weight_hh w row k * h k) + bias_hh w row.

(** One time step for a batch of [B] rows: [x] is [[B, input_size]], the
    state is a pair of [[B, hidden_size]], all row-major. *)
Definition cell (l : t) (w : direction) (B : nat) (x : list R)
    (hc : list R * list R) : list R * list R :=
  let H := hidden_size l in
  let pre idx row :=
    gate l w (fun k => nth ((idx / H) * input_size l + k) x 0)
             (fun k => nth ((idx / H) * H + k) (fst hc) 0) row in
  let c' := tab (B * H) (fun idx =>
              sigmoid (pre idx (H + idx mod H)%nat) * nth idx (snd hc) 0
              + sigmoid (pre idx (idx mod H)%nat) * tanh (pre idx (2 * H + idx mod H)%nat)) in
  let h' := tab (B * H) (fun idx =>
              sigmoid (pre idx (3 * H + idx mod H)%nat) * tanh (nth idx c' 0)) in
  (h', c').

(** The cell applied along a list of time slices: the hidden vectors of
    every step and the final state. *)
Fixpoint scan (l : t) (w : direction) (B : nat) (xs : list (list R))
    (hc : list R * list R) : list (list R) * (list R * list R) :=
  match xs with
  | [] => ([], hc)
  | x :: rest =>
      let hc' := cell l w B x hc in
      let r := scan l w B rest hc' in
      (fst hc' :: fst r, snd r)
  end.

Definition forward (l : t) (input : tensor) (hx : option (tensor * tensor))
  : result (tensor * (tensor * tensor)) :=
  match shape input with
  | [L; B; K] =>
      if negb (K =? input_size l)%nat then Err ShapeError
      else if (L =? 0)%nat then Err ShapeError
      else
        let D := num_directions l in
        let H := hidden_size l in
        '(h0, c0) <-
          match hx with
          | None => Ok (torch.zeros [D; B; H], torch.zeros [D; B; H])
          | Some (h0, c0) =>
              if (shape_eqb (shape h0) [D; B; H] && shape_eqb (shape c0) [D; B; H])%bool
              then Ok (h0, c0) else Err ShapeError
          end ;;
        let xs := tab L (fun t => tab (B * K) (fun k => get input (t * (B * K) + k))) in
        let st d := (tab (B * H) (fun k => get h0 (d * (B * H) + k)),
                     tab (B * H) (fun k => get c0 (d * (B * H) + k))) in
        let f := scan l (l0 l) B xs (st 0%nat) in
        if bidirectional l
        then
          let b := scan l (l0_reverse l) B (rev xs) (st 1%nat) in
          let hs_b := rev (fst b) in
          Ok (mkT [L; B; (2 * H)%nat]
                (tab (L * B * (2 * H))
                   (fun k =>
                      let t := (k / (B * (2 * H)))%nat in
                      let r := ((k / (2 * H)) mod B)%nat in
                      let j := (k mod (2 * H))%nat in
                      if (j <? H)%nat
                      then nth (r * H + j) (nth t (fst f) []) 0
                      else nth (r * H + (j - H)) (nth t hs_b []) 0)),
              (mkT [2%nat; B; H]
                 (tab (2 * (B * H))
                    (fun k => if (k <? B * H)%nat then nth k (fst (snd f)) 0
                              else nth (k - B * H) (fst (snd b)) 0)),
               mkT [2%nat; B; H]
                 (tab (2 * (B * H))
                    (fun k => if (k <? B * H)%nat then nth k (snd (snd f)) 0
                              else nth (k - B * H) (snd (snd b)) 0))))
        else
          Ok (mkT [L; B; H]
                (tab (L * B * H)
                   (fun k => nth (k mod (B * H)) (nth (k / (B * H)) (fst f) []) 0)),
              (mkT [1%nat; B; H] (fst (snd f)), mkT [1%nat; B; H] (snd (snd f))))
  | _ => Err ShapeError
  end.
End LSTM.

End nn.

(** ** [model.utils] *)

Module utils.

(** Modelled from the spec: [model/utils.py] is not among the sources; its
    [View], [Unsqueeze] and [Permute] are the layout helpers the design notes
    describe (reshape, unsqueeze and permute calls wrapped as layers), each
    forwarding to the tensor method of the same name. *)
Definition View (cols : nat) (x : tensor) : result tensor := torch.view2 cols x.

(** Modelled from the spec: [model/utils.py], [Unsqueeze(0)]. *)
Definition Unsqueeze0 (x : tensor) : result tensor := torch.unsqueeze0 x.

(** Modelled from the spec: [model/utils.py], [Unsqueeze(1)]. *)
Definition Unsqueeze1 (x : tensor) : result tensor := torch.unsqueeze1 x.

(** Modelled from the spec: [model/utils.py], [Permute(1, 0)]. *)
Definition Permute10 (x : tensor) : result tensor := torch.permute10 x.

End utils.

(** ** [class Encoder] *)

Module Encoder.

Record t : Type := mk
  { hidden_size : nat;
    embedding : nn.Embedding.t;
    lstm : nn.LSTM.t;
    linear_fc : nn.Linear.t;
    reduce_hidden_fc : nn.Linear.t;
    reduce_cell_fc : nn.Linear.t }.

Record parameters : Type := mkP
  { embedding_weight : nat -> nat -> R;
    lstm_l0 : nn.LSTM.direction;
    lstm_l0_reverse : nn.LSTM.direction;
    linear_p : nn.Linear.parameters;
    reduce_hidden_p : nn.Linear.parameters;
    reduce_cell_p : nn.Linear.parameters }.

(** [Encoder.__init__] *)
Definition init (vocab_size embedding_dim hidden_size : nat) (p : parameters) : t :=
  mk hidden_size
     (nn.Embedding.mk vocab_size embedding_dim (embedding_weight p))
     (nn.LSTM.mk embedding_dim hidden_size true (lstm_l0 p) (lstm_l0_reverse p))
     (nn.Linear.init (hidden_size * 2) (hidden_size * 2) (linear_p p))
     (nn.Linear.init (hidden_size * 2) hidden_size (reduce_hidden_p p))
     (nn.Linear.init (hidden_size * 2) hidden_size (reduce_cell_p p)).

(** [self.linear] *)
Definition linear (m : t) (x : tensor) : result tensor :=
  x <- utils.View (2 * hidden_size m) x ;;
  nn.Linear.forward (linear_fc m) x.

(** [self.reduce_hidden] *)
Definition reduce_hidden (m : t) (x : tensor) : result tensor :=
  x <- utils.View (hidden_size m * 2) x ;;
  x <- nn.Linear.forward (reduce_hidden_fc m) x ;;
  x <- nn.ReLU.forward x ;;
  utils.Unsqueeze0 x.

(** [self.reduce_cell] *)
Definition reduce_cell (m : t) (x : tensor) : result tensor :=
  x <- utils.View (hidden_size m * 2) x ;;
  x <- nn.Linear.forward (reduce_cell_fc m) x ;;
  x <- nn.ReLU.forward x ;;
  utils.Unsqueeze0 x.

(** [Encoder.forward]; [contiguous()] does not change the logical tensor. *)
Definition forward (m : t) (x_in : ltensor)
  : result (tensor * tensor * (tensor * tensor)) :=
  x <- nn.Embedding.forward (embedding m) x_in ;;
  '(x, (hidden, cell)) <- nn.LSTM.forward (lstm m) x None ;;
  x_out <- linear m x ;;
  x <- torch.permute102 x ;;
  hidden <- torch.permute102 hidden ;;
  hidden <- reduce_hidden m hidden ;;
  cell <- torch.permute102 cell ;;
  cell <- reduce_cell m cell ;;
  Ok (x, x_out, (hidden, cell)).

End Encoder.

(** ** [class Attention] *)

Module Attention.

Record t : Type := mk
  { hidden_size : nat;
    batch_size : nat;      (* captured by the [View] layer of [self.attention] *)
    features_fc : nn.Linear.t;
    coverage_fc : nn.Linear.t;
    attention_fc : nn.Linear.t }.

Record parameters : Type := mkP
  { features_p : nn.Linear.parameters;
    coverage_p : nn.Linear.parameters;
    attention_p : nn.Linear.parameters }.

(** [Attention.__init__] *)
Definition init (hidden_size batch_size : nat) (p : parameters) : t :=
  mk hidden_size batch_size
     (nn.Linear.init (hidden_size * 2) (hidden_size * 2) (features_p p))
     (nn.Linear.init 1 (hidden_size * 2) (coverage_p p))
     (nn.Linear.init (hidden_size * 2) 1 (attention_p p)).

(** [self.features] *)
Definition features (m : t) (x : tensor) : result tensor :=
  x <- nn.Linear.forward (features_fc m) x ;;
  utils.Unsqueeze0 x.

(** [self.coverage] *)
Definition coverage (m : t) (x : tensor) : result tensor :=
  x <- utils.View 1 x ;;
  nn.Linear.forward (coverage_fc m) x.

(** [self.attention] *)
Definition attention (m : t) (x : tensor) : result tensor :=
  x <- nn.Tanh.forward x ;;
  x <- nn.Linear.forward (attention_fc m) x ;;
  x <- utils.View (batch_size m) x ;;
  x <- nn.Softmax.forward0 x ;;
  x <- utils.Permute10 x ;;
  utils.Unsqueeze1 x.

(** The first two layers of [self.attention]: one score per row, before
    the reshape and the normalisation. *)
Definition scores (m : t) (x : tensor) : result tensor :=
  x <- nn.Tanh.forward x ;;
  nn.Linear.forward (attention_fc m) x.

(** The sum of the three feature tensors that [forward] hands to
    [self.attention]. *)
Definition summed_features (m : t) (hidden encoder_out encoder_features cov : tensor)
  : result tensor :=
  '(batch, sequence_len, hidden_size) <- torch.shape3 encoder_out ;;
  decoder_features <- features m hidden ;;
  decoder_features <- torch.expand3 sequence_len batch hidden_size decoder_features ;;
  decoder_features <- torch.view2 hidden_size decoder_features ;;
  coverage_features <- coverage m cov ;;
  a <- torch.add encoder_features decoder_features ;;
  torch.add a coverage_features.

(** [Attention.forward] *)
Definition forward (m : t) (hidden encoder_out encoder_features cov : tensor)
  : result (tensor * tensor * tensor) :=
  '(batch, sequence_len, hidden_size) <- torch.shape3 encoder_out ;;
  decoder_features <- features m hidden ;;
  decoder_features <- torch.expand3 sequence_len batch hidden_size decoder_features ;;
  decoder_features <- torch.view2 hidden_size decoder_features ;;
  coverage_features <- coverage m cov ;;
  a <- torch.add encoder_features decoder_features ;;
  a <- torch.add a coverage_features ;;
  a <- attention m a ;;
  context <- torch.bmm a encoder_out ;;
  context <- torch.view2 (2 * Attention.hidden_size m) context ;;
  a <- torch.view2 sequence_len a ;;
  a <- torch.permute10 a ;;
  cov <- torch.add cov a ;;
  Ok (context, a, cov).

End Attention.

(** ** [class Decoder] *)

Module Decoder.

Record t : Type := mk
  { hidden_size : nat;
    attention : Attention.t;
    embedding : nn.Embedding.t;
    lstm : nn.LSTM.t;
    context_fc : nn.Linear.t;
    out_fc1 : nn.Linear.t;
    out_fc2 : nn.Linear.t }.

Record parameters : Type := mkP
  { attention_p : Attention.parameters;
    embedding_weight : nat -> nat -> R;
    lstm_l0 : nn.LSTM.direction;
    context_p : nn.Linear.parameters;
    out_p1 : nn.Linear.parameters;
    out_p2 : nn.Linear.parameters }.

(** [Decoder.__init__]; the unidirectional [nn.LSTM] has no reverse
    weights, the record field is filled with the forward ones and never
    read. *)
Definition init (vocab_size batch_size embedding_dim hidden_size : nat)
    (p : parameters) : t :=
  mk hidden_size
     (Attention.init hidden_size batch_size (attention_p p))
     (nn.Embedding.mk vocab_size embedding_dim (embedding_weight p))
     (nn.LSTM.mk embedding_dim hidden_size false (lstm_l0 p) (lstm_l0 p))
     (nn.Linear.init (hidden_size * 2 + embedding_dim) embedding_dim (context_p p))
     (nn.Linear.init (hidden_size * 3) hidden_size (out_p1 p))
     (nn.Linear.init hidden_size vocab_size (out_p2 p)).

(** [self.context] *)
Definition context (m : t) (x : tensor) : result tensor :=
  x <- nn.Linear.forward (context_fc m) x ;;
  utils.Unsqueeze0 x.

(** [self.out] *)
Definition out (m : t) (x : tensor) : result tensor :=
  x <- nn.Linear.forward (out_fc1 m) x ;;
  x <- nn.Linear.forward (out_fc2 m) x ;;
  nn.Softmax.forward1 x.

(** What one call returns:
    [(x, hidden_out, context, attention, coverage_next)]. *)
Definition output : Type := (tensor * tensor * tensor * tensor * tensor)%type.

(** [Decoder.forward] *)
Definition forward (m : t) (x_in : ltensor) (hidden_in : tensor * tensor)
    (encoder_out encoder_features ctx cov : tensor) : result output :=
  x <- nn.Embedding.forward (embedding m) x_in ;;
  x <- torch.cat1 ctx x ;;
  x <- context m x ;;
  '(x, (hidden, cell)) <- nn.LSTM.forward (lstm m) x (Some hidden_in) ;;
  hidden <- torch.view2 (hidden_size m) hidden ;;
  cell <- torch.view2 (hidden_size m) cell ;;
  hidden_out <- torch.cat1 hidden cell ;;
  '(ctx, a, coverage_next) <-
    Attention.forward (attention m) hidden_out encoder_out encoder_features cov ;;
  x <- torch.view2 (hidden_size m) x ;;
  x <- torch.cat1 x ctx ;;
  x <- out m x ;;
  Ok (x, hidden_out, ctx, a, coverage_next).

End Decoder.

(** ** [class PointerGeneratorNetwork] *)

Module PointerGeneratorNetwork.

Record t : Type := mk
  { max_summary_length : nat;
    batch_size : nat;
    hidden_size : nat;
    encoder : Encoder.t;
    decoder : Decoder.t }.

Record parameters : Type := mkP
  { encoder_p : Encoder.parameters;
    decoder_p : Decoder.parameters }.

(** [PointerGeneratorNetwork.__init__] *)
Definition init (vocab_size batch_size max_summary_length embedding_dim hidden_size : nat)
    (p : parameters) : t :=
  mk max_summary_length batch_size hidden_size
     (Encoder.init vocab_size embedding_dim hidden_size (encoder_p p))
     (Decoder.init vocab_size batch_size embedding_dim hidden_size (decoder_p p)).

(** The local variables the loop of [forward] assigns. *)
Record locals : Type := mkLocals
  { context : tensor;
    coverage : tensor;
    outputs : list tensor;
    attention_list : list tensor;
    coverage_list : list tensor;
    decoder_hidden : option tensor }.

(** The body of [for i in range(self.max_summary_length)].  [hidden],
    [encoder_out] and [encoder_features] are assigned before the loop and
    not inside it. *)
Definition body (m : t) (summaries : ltensor) (hidden : tensor * tensor)
    (encoder_out encoder_features : tensor) (i : nat) (st : locals) : result locals :=
  decoder_input <- torch.row summaries i ;;
  '(decoder_out, decoder_hidden', context', attention, coverage') <-
    Decoder.forward (decoder m) decoder_input hidden encoder_out encoder_features
      (context st) (coverage st) ;;
  Ok (mkLocals context' coverage'
        (outputs st ++ [decoder_out])
        (attention_list st ++ [attention])
        (coverage_list st ++ [coverage'])
        (Some decoder_hidden')).

Fixpoint loop (m : t) (summaries : ltensor) (hidden : tensor * tensor)
    (encoder_out encoder_features : tensor) (range : list nat) (st : locals)
  : result locals :=
  match range with
  | [] => Ok st
  | i :: rest =>
      st' <- body m summaries hidden encoder_out encoder_features i st ;;
      loop m summaries hidden encoder_out encoder_features rest st'
  end.

(** [PointerGeneratorNetwork.forward] *)
Definition forward (m : t) (texts summaries : ltensor)
  : result (list tensor * list tensor * list tensor) :=
  '(encoder_out, encoder_features, hidden) <- Encoder.forward (encoder m) texts ;;
  let context0 := torch.zeros [batch_size m; (2 * hidden_size m)%nat] in
  let coverage0 := torch.zeros_like texts in
  st <- loop m summaries hidden encoder_out encoder_features
          (seq 0 (max_summary_length m))
          (mkLocals context0 coverage0 [] [] [] None) ;;
  Ok (outputs st, attention_list st, coverage_list st).

(** *** The loop as a machine with a counter

    A configuration is the counter [i] with the loop's locals; one step
    runs the body at [i] and moves to [i + 1]; the machine stops when the
    counter reaches [max_summary_length]. *)
Inductive step (m : t) (summaries : ltensor) (hidden : tensor * tensor)
    (encoder_out encoder_features : tensor) : nat * locals -> nat * locals -> Prop :=
| step_body : forall i st st',
    (i < max_summary_length m)%nat ->
    body m summaries hidden encoder_out encoder_features i st = Ok st' ->
    step m summaries hidden encoder_out encoder_features (i, st) (S i, st').

Inductive steps (m : t) (summaries : ltensor) (hidden : tensor * tensor)
    (encoder_out encoder_features : tensor) : nat * locals -> nat * locals -> Prop :=
| steps_refl : forall c, steps m summaries hidden encoder_out encoder_features c c
| steps_cons : forall c1 c2 c3,
    step m summaries hidden encoder_out encoder_features c1 c2 ->
    steps m summaries hidden encoder_out encoder_features c2 c3 ->
    steps m summaries hidden encoder_out encoder_features c1 c3.


(** *** The decoder calls of one invocation

    [calls] is the loop again, recording for every iteration the arguments
    handed to [self.decoder] and what it returned. *)
Record call : Type := mkCall
  { index : nat;
    hidden_arg : tensor * tensor;
    context_arg : tensor;
    coverage_arg : tensor;
    returned : Decoder.output }.

Definition ret_out (c : call) : tensor :=
  let '(x, _, _, _, _) := returned c in x.
Definition ret_hidden (c : call) : tensor :=
  let '(_, h, _, _, _) := returned c in h.
Definition ret_context (c : call) : tensor :=
  let '(_, _, ctx, _, _) := returned c in ctx.
Definition ret_attention (c : call) : tensor :=
  let '(_, _, _, a, _) := returned c in a.
Definition ret_coverage (c : call) : tensor :=
  let '(_, _, _, _, cov) := returned c in cov.

Fixpoint calls (m : t) (summaries : ltensor) (hidden : tensor * tensor)
    (encoder_out encoder_features : tensor) (range : list nat) (ctx cov : tensor)
  : result (list call) :=
  match range with
  | [] => Ok []
  | i :: rest =>
      decoder_input <- torch.row summaries i ;;
      r <- Decoder.forward (decoder m) decoder_input hidden encoder_out
             encoder_features ctx cov ;;
      let c := mkCall i hidden ctx cov r in
      cs <- calls m summaries hidden encoder_out encoder_features rest
              (ret_context c) (ret_coverage c) ;;
      Ok (c :: cs)
  end.

Definition forward_calls (m : t) (texts summaries : ltensor) : result (list call) :=
  '(encoder_out, encoder_features, hidden) <- Encoder.forward (encoder m) texts ;;
  calls m summaries hidden encoder_out encoder_features
    (seq 0 (max_summary_length m))
    (torch.zeros [batch_size m; (2 * hidden_size m)%nat])
    (torch.zeros_like texts).

End PointerGeneratorNetwork.

(** ** Python lists *)

(** The position [l[i]] denotes in a list of [n] entries: [i] itself from 0
    on, [n + i] when [i] is negative, none outside [-n .. n-1]. *)
Definition py_position (n : nat) (i : Z) : option nat :=
  if ((0 <=? i) && (i <? Z.of_nat n))%Z%bool then Some (Z.to_nat i)
  else if ((- Z.of_nat n <=? i) && (i <? 0))%Z%bool then Some (Z.to_nat (Z.of_nat n + i))
  else None.

(** The list with entry [k] replaced. *)
Fixpoint update {A : Type} (l : list A) (k : nat) (v : A) : list A :=
  match l, k with
  | [], _ => []
  | _ :: t, O => v :: t
  | x :: t, S k' => x :: update t k' v
  end.

(** [l[i]] *)
Definition py_getitem {A : Type} (l : list A) (i : Z) : result A :=
  match py_position (length l) i with
  | Some k =>
      match nth_error l k with
      | Some a => Ok a
      | None => Err IndexError
      end
  | None => Err IndexError
  end.

(** [l[i] = v] *)
Definition py_setitem {A : Type} (l : list A) (i : Z) (v : A) : result (list A) :=
  match py_position (length l) i with
  | Some k => Ok (update l k v)
  | None => Err IndexError
  end.

(** ** [web_app/controller.py] *)

Module controller.

Import String.StringSyntax.
Local Open Scope string_scope.
Local Infix "+++" := String.append (right associativity, at level 60).

Section Routes.

(** What is not among the sources: the class of the articles the connector
    returns (only its attributes [content] and [named_entities] are used),
    the type of the fourth component of a named entity (never read), and
    [tokenize_text_content] with the module's [word_tokenizer]. *)
Variable Content : Type.
Variable Extra : Type.
Variable tokenize_text_content : Content -> list String.string.

(** [(tag, position, length, _)] *)
Definition entity : Type := (String.string * Z * Z * Extra)%type.

Record article : Type := mkArticle
  { content : Content;
    named_entities : list entity }.

(** The body of [for tag, position, length, _ in article.named_entities]. *)
Definition mark (tokens : list String.string) (e : entity)
  : result (list String.string) :=
  let '(tag, position, length, _) := e in
  start_token <- py_getitem tokens position ;;
  tokens <- py_setitem tokens position ("<strong>" +++ start_token) ;;
  end_token <- py_getitem tokens (position + length - 1)%Z ;;
  py_setitem tokens (position + length - 1)%Z (end_token +++ " (" +++ tag +++ ")</strong>").

Fixpoint mark_all (tokens : list String.string) (es : list entity)
  : result (list String.string) :=
  match es with
  | [] => Ok tokens
  | e :: rest =>
      tokens <- mark tokens e ;;
      mark_all tokens rest
  end.

(** [show_article], from the value of [int(article_index)] on; it returns
    what it hands to [flask.render_template]: the article and the content. *)
Definition show_article (articles : list article) (article_index : Z)
  : result (article * String.string) :=
  a <- py_getitem articles (article_index - 1)%Z ;;
  let tokens := tokenize_text_content (content a) in
  tokens <- mark_all tokens (named_entities a) ;;
  Ok (a, String.concat " " tokens).

End Routes.

(** What the loop puts in front of the first token of an entity and behind
    its last one. *)
Definition space : String.string := " ".
Definition open_tag : String.string := "<strong>".
Definition close_tag (tag : String.string) : String.string :=
  " (" +++ tag +++ ")</strong>".

(** The characters of a list of tokens. *)
Definition total_length (l : list String.string) : nat :=
  list_sum (map String.length l).

(** The tokens after one entity whose two positions are [k1] and [k2]: the
    opening tag goes in front of token [k1], then the closing tag behind
    token [k2]. *)
Definition marked (tokens : list String.string) (tag : String.string) (k1 k2 : nat)
  : list String.string :=
  let t1 := update tokens k1 (open_tag +++ nth k1 tokens String.EmptyString) in
  update t1 k2 (nth k2 t1 String.EmptyString +++ close_tag tag).

(** An index [i] that denotes a position in a list of [n] entries. *)
Definition valid_index (n : nat) (i : Z) : Prop :=
  (- Z.of_nat n <= i < Z.of_nat n)%Z.

(** Both positions a named entity touches are valid for [n] tokens. *)
Definition entity_fits {Extra : Type} (n : nat) (e : entity Extra) : Prop :=
  let '(_, position, length, _) := e in
  valid_index n position /\ valid_index n (position + length - 1)%Z.

(** [t'] is [t] with text added in front and behind. *)
Definition wrapped (t t' : String.string) : Prop :=
  exists pre suf, t' = pre +++ t +++ suf.

(** The characters the loop adds for a list of entities: 20 for the two
    tags, the parentheses and the space, plus the tag's own length. *)
Definition markup_length {Extra : Type} (es : list (entity Extra)) : nat :=
  list_sum (map (fun e : entity Extra =>
                   let '(tag, _, _, _) := e in (20 + String.length tag)%nat) es).

End controller.

(** ** Vocabulary used by the statements *)

(** Entry [k] of the concatenation, for batch element [b], of the two
    directions of a final state [[2, B, H]]. *)
Definition both_directions (H B : nat) (state : tensor) (b k : nat) : R :=
  get state (((k / H) * B + b) * H + k mod H).


(** The recurrent state [(hidden, cell)] packed the way [Decoder.forward]
    packs the state it returns: both viewed as [[-1, hidden_size]] and
    concatenated along dimension 1. *)
Definition packed_state (hidden_size : nat) (hc : tensor * tensor) : result tensor :=
  h <- torch.view2 hidden_size (fst hc) ;;
  c <- torch.view2 hidden_size (snd hc) ;;
  torch.cat1 h c.





(** Token ids a table of [vocab_size] rows can embed. *)
Definition ids_in_range (vocab_size : nat) (x : ltensor) : bool :=
  forallb (fun z => ((0 <=? z)%Z && (z <? Z.of_nat vocab_size)%Z)%bool) (ldata x).

(** The score of source position [s] for batch element [b], entry by entry:
    the decoder state of element [b] and the coverage of [(s, b)] are
    projected, added to the encoder features of [(s, b)] (row [s * B + b]),
    passed through tanh and the scoring layer.  Only entries of batch
    element [b] are read. *)
Definition score_at (H B : nat) (p : Attention.parameters) (hidden ef cov : tensor)
    (s b : nat) : R :=
  let W := (2 * H)%nat in
  let wf := Attention.features_p p in
  let wc := Attention.coverage_p p in
  let wa := Attention.attention_p p in
  rsum W (fun j =>
    nn.Linear.p_weight wa 0%nat j
    * tanh (get ef ((s * B + b) * W + j)
            + (rsum W (fun i => nn.Linear.p_weight wf j i * get hidden (b * W + i))
               + nn.Linear.p_bias wf j)
            + (nn.Linear.p_weight wc j 0%nat * get cov (s * B + b)
               + nn.Linear.p_bias wc j)))
  + nn.Linear.p_bias wa 0%nat.

(** [a] holds, column by column, the softmax of the [n] entries of that
    column of [e]: both are [[n, w]] row-major. *)
Definition softmax_columns (n w : nat) (e a : tensor) : Prop :=
  forall k, (k < n * w)%nat ->
    get a k = exp (get e k) / rsum n (fun i => exp (get e (i * w + k mod w))).

(** [x] holds, row by row, the softmax of some matrix of logits: both are
    [[n, w]] row-major. *)
Definition softmax_rows (n w : nat) (x : tensor) : Prop :=
  exists z : tensor, forall k, (k < n * w)%nat ->
    get x k = exp (get z k) / rsum w (fun j => exp (get z ((k / w) * w + j))).

(** What the loop does with the result of one decoder call. *)
Definition record_call (st : PointerGeneratorNetwork.locals)
    (c : PointerGeneratorNetwork.call) : PointerGeneratorNetwork.locals :=
  PointerGeneratorNetwork.mkLocals
    (PointerGeneratorNetwork.ret_context c)
    (PointerGeneratorNetwork.ret_coverage c)
    (PointerGeneratorNetwork.outputs st ++ [PointerGeneratorNetwork.ret_out c])
    (PointerGeneratorNetwork.attention_list st ++ [PointerGeneratorNetwork.ret_attention c])
    (PointerGeneratorNetwork.coverage_list st ++ [PointerGeneratorNetwork.ret_coverage c])
    (Some (PointerGeneratorNetwork.ret_hidden c)).


(** A placeholder for positions outside a list of calls. *)
Definition no_call : PointerGeneratorNetwork.call :=
  let z := mkT [] [] in
  PointerGeneratorNetwork.mkCall 0 (z, z) z z (z, z, z, z, z).

(** [cs[t]] for a list of calls. *)
Definition call_at (cs : list PointerGeneratorNetwork.call) (t : nat)
  : PointerGeneratorNetwork.call := nth t cs no_call.

(** Token matrices a valid invocation receives: [rows] rows of [cols] ids,
    all of them embeddable. *)
Record token_matrix (V rows cols : nat) (x : ltensor) : Prop := mkTokens
  { tok_shape : lshape x = [rows; cols];
    tok_length : length (ldata x) = (rows * cols)%nat;
    tok_range : ids_in_range V x = true }.

(** A valid invocation of [run]: a model built for batches of [B], source
    tokens [[N, B]] with at least one position, target tokens with a row for
    every step, all ids embeddable. *)
Record valid_invocation (V B L H T N : nat) (texts summaries : ltensor) : Prop :=
  mkValid
  { vi_hidden : (0 < H)%nat;
    vi_batch : (0 < B)%nat;
    vi_source : (0 < N)%nat;
    vi_texts : token_matrix V N B texts;
    vi_summaries : token_matrix V T B summaries;
    vi_steps : (L <= T)%nat }.

(** The operands one decoder call receives inside a valid invocation. *)
Record decoder_operands (V B H N : nat) (x_in : ltensor) (hidden_in : tensor * tensor)
    (eo ef ctx cov : tensor) : Prop := mkOperands
  { op_x_shape : lshape x_in = [B];
    op_x_length : length (ldata x_in) = B;
    op_x_range : ids_in_range V x_in = true;
    op_h_shape : shape (fst hidden_in) = [1%nat; B; H];
    op_c_shape : shape (snd hidden_in) = [1%nat; B; H];
    op_eo_shape : shape eo = [B; N; (2 * H)%nat];
    op_ef_shape : shape ef = [(N * B)%nat; (2 * H)%nat];
    op_ctx_shape : shape ctx = [B; (2 * H)%nat];
    op_cov_shape : shape cov = [N; B] }.

(** What a decoder call returns on such operands. *)
Record decoder_result (V B H N : nat) (cov : tensor) (r : Decoder.output) : Prop :=
  mkResult
  { res_x_shape : shape (let '(x, _, _, _, _) := r in x) = [B; V];
    res_x_softmax : softmax_rows B V (let '(x, _, _, _, _) := r in x);
    res_h_shape : shape (let '(_, h, _, _, _) := r in h) = [B; (2 * H)%nat];
    res_ctx_shape : shape (let '(_, _, c, _, _) := r in c) = [B; (2 * H)%nat];
    res_a_shape : shape (let '(_, _, _, a, _) := r in a) = [N; B];
    res_a_softmax : exists sc, softmax_columns N B sc (let '(_, _, _, a, _) := r in a);
    res_cov_shape : shape (let '(_, _, _, _, c) := r in c) = [N; B];
    res_cov_sum : forall k, (k < N * B)%nat ->
        get (let '(_, _, _, _, c) := r in c) k
        = get cov k + get (let '(_, _, _, a, _) := r in a) k }.

(** A list of decoder calls as the loop issues them from counter [i] on:
    every call gets the same [hidden], and the context and coverage the
    previous call returned. *)
Inductive threaded (V B H N : nat) (hidden : tensor * tensor)
  : nat -> tensor -> tensor -> list PointerGeneratorNetwork.call -> Prop :=
| threaded_nil : forall i ctx cov, threaded V B H N hidden i ctx cov []
| threaded_cons : forall i ctx cov c cs,
    PointerGeneratorNetwork.index c = i ->
    PointerGeneratorNetwork.hidden_arg c = hidden ->
    PointerGeneratorNetwork.context_arg c = ctx ->
    PointerGeneratorNetwork.coverage_arg c = cov ->
    decoder_result V B H N cov (PointerGeneratorNetwork.returned c) ->
    threaded V B H N hidden (S i)
      (PointerGeneratorNetwork.ret_context c) (PointerGeneratorNetwork.ret_coverage c) cs ->
    threaded V B H N hidden i ctx cov (c :: cs).

(** ** Concrete invocations *)

(** Learned parameters that are all zero. *)
Module Zero.
Definition linear : nn.Linear.parameters :=
  nn.Linear.mkP (fun _ _ => 0) (fun _ => 0).
Definition direction : nn.LSTM.direction :=
  nn.LSTM.mkDir (fun _ _ => 0) (fun _ _ => 0) (fun _ => 0) (fun _ => 0).
Definition attention : Attention.parameters :=
  Attention.mkP linear linear linear.
Definition encoder : Encoder.parameters :=
  Encoder.mkP (fun _ _ => 0) direction direction linear linear linear.
Definition decoder : Decoder.parameters :=
  Decoder.mkP attention (fun _ _ => 0) direction linear linear linear.
Definition network : PointerGeneratorNetwork.parameters :=
  PointerGeneratorNetwork.mkP encoder decoder.
End Zero.

(** The end-to-end scenario: [batchSize=2], [sourceLen=5],
    [maxSummaryLength=3], [vocabSize=50], default embedding and hidden
    sizes. *)
Module Scenario.
Definition model : PointerGeneratorNetwork.t :=
  PointerGeneratorNetwork.init 50 2 3 128 256 Zero.network.
Definition texts : ltensor :=
  mkL [5%nat; 2%nat] [4; 9; 17; 3; 25; 8; 41; 2; 0; 0]%Z.
Definition summaries : ltensor :=
  mkL [3%nat; 2%nat] [1; 1; 12; 30; 2; 2]%Z.
End Scenario.

(** The smallest invocation with two decode steps: one source token, a batch
    of one, a vocabulary of one id, width one everywhere.  All parameters are
    zero except the bias of the encoder's [reduce_cell] layer, which is one. *)
Module Tiny.
Definition parameters : PointerGeneratorNetwork.parameters :=
  PointerGeneratorNetwork.mkP
    (Encoder.mkP (fun _ _ => 0) Zero.direction Zero.direction Zero.linear Zero.linear
       (nn.Linear.mkP (fun _ _ => 0) (fun _ => 1)))
    Zero.decoder.
Definition model : PointerGeneratorNetwork.t :=
  PointerGeneratorNetwork.init 1 1 2 1 1 parameters.
Definition texts : ltensor := mkL [1%nat; 1%nat] [0%Z].
Definition summaries : ltensor := mkL [2%nat; 1%nat] [0%Z; 0%Z].
End Tiny.

(** An attention module built for batches of two, handed operands whose batch
    dimension is one: two source positions, hidden size one. *)
Module Mismatch.
Definition attention : Attention.t := Attention.init 1 2 Zero.attention.
Definition hidden : tensor := torch.zeros [1%nat; 2%nat].
Definition encoder_out : tensor := torch.zeros [1%nat; 2%nat; 2%nat].
Definition encoder_features : tensor := torch.zeros [2%nat; 2%nat].
Definition coverage : tensor := torch.zeros [2%nat; 1%nat].
End Mismatch.

(** Variations of the end-to-end scenario. *)
Module Variation.
(** The targets of the scenario with another last row. *)
Definition other_last_row : ltensor :=
  mkL [3%nat; 2%nat] [1; 1; 12; 30; 7; 49]%Z.
(** The targets of the scenario with a fourth row, of ids no table holds. *)
Definition extra_row : ltensor :=
  mkL [4%nat; 2%nat] [1; 1; 12; 30; 2; 2; 50; -1]%Z.
(** Source tokens with a negative id. *)
Definition bad_source : ltensor :=
  mkL [5%nat; 2%nat] [4; 9; 17; 3; -1; 8; 41; 2; 0; 0]%Z.
(** Source and target tokens for a batch of three. *)
Definition texts3 : ltensor :=
  mkL [2%nat; 3%nat] [4; 9; 17; 3; 25; 8]%Z.
Definition summaries3 : ltensor :=
  mkL [3%nat; 3%nat] [1; 1; 1; 12; 30; 5; 2; 2; 2]%Z.
End Variation.

(** An article of four tokens with a two-token person and a one-token
    place, for a tokenizer that returns the content as it is. *)
Module Newsroom.
Import String.StringSyntax.
Local Open Scope string_scope.
Definition tokenizer (c : list String.string) : list String.string := c.
Definition first : controller.article (list String.string) unit :=
  controller.mkArticle (list String.string) unit
    ["Angela"; "Merkel"; "visited"; "Paris"]
    [("PER", 0%Z, 2%Z, tt); ("LOC", 3%Z, 1%Z, tt)].
Definition second : controller.article (list String.string) unit :=
  controller.mkArticle (list String.string) unit ["Rain"; "tomorrow"] [].
Definition person : String.string := "PER".
Definition articles : list (controller.article (list String.string) unit) :=
  [first; second].
Definition highlighted : String.string :=
  "<strong>Angela Merkel (PER)</strong> visited <strong>Paris (LOC)</strong>".
End Newsroom.

(** * Properties *)

(** ** Results *)

Lemma bind_Ok {A B : Type} (r : result A) (k : A -> result B) (b : B) :
  bind r k = Ok b -> exists a, r = Ok a /\ k a = Ok b.
Proof.
  destruct r as [a|e]; simpl; intros E.
  - exists a; split; [reflexivity | exact E].
  - discriminate E.
Qed.

(** ** Tabulated lists *)

Lemma length_tab {A : Type} (n : nat) (f : nat -> A) : length (tab n f) = n.
Proof. unfold tab. rewrite length_map, length_seq. reflexivity. Qed.

Lemma nth_tab {A : Type} (n : nat) (f : nat -> A) (d : A) (k : nat) :
  (k < n)%nat -> nth k (tab n f) d = f k.
Proof.
  intros Hk. unfold tab.
  rewrite (nth_indep _ d (f 0%nat)) by (rewrite length_map, length_seq; exact Hk).
  rewrite map_nth, seq_nth by exact Hk. reflexivity.
Qed.

Lemma get_mkT (sh : list nat) (n : nat) (f : nat -> R) (k : nat) :
  (k < n)%nat -> get (mkT sh (tab n f)) k = f k.
Proof. intros Hk. unfold get; simpl. apply nth_tab; exact Hk. Qed.

(** ** Row-major index arithmetic *)

Lemma idx_div (i j c : nat) : (j < c)%nat -> ((i * c + j) / c = i)%nat.
Proof.
  intros Hj. rewrite Nat.add_comm, Nat.div_add by lia.
  rewrite Nat.div_small by exact Hj. reflexivity.
Qed.

Lemma idx_mod (i j c : nat) : (j < c)%nat -> ((i * c + j) mod c = j)%nat.
Proof.
  intros Hj. rewrite Nat.add_comm, Nat.Div0.mod_add.
  apply Nat.mod_small; exact Hj.
Qed.

Lemma idx_lt (i j r c : nat) : (i < r)%nat -> (j < c)%nat -> (i * c + j < r * c)%nat.
Proof. intros Hi Hj. nia. Qed.

Lemma idx_split (k c : nat) : (0 < c)%nat -> (k = (k / c) * c + k mod c)%nat.
Proof. intros Hc. rewrite (Nat.div_mod_eq k c) at 1. lia. Qed.

Lemma div_lt_rows (k r c : nat) : (k < r * c)%nat -> (k / c < r)%nat.
Proof. intros Hk. apply Nat.Div0.div_lt_upper_bound. lia. Qed.

Lemma mod_lt_cols (k r c : nat) : (k < r * c)%nat -> (k mod c < c)%nat.
Proof. intros Hk. apply Nat.mod_upper_bound. intros ->. lia. Qed.

Lemma div_exact (n q c : nat) : (0 < c)%nat -> n = (q * c)%nat -> (n / c = q)%nat.
Proof. intros Hc ->. apply Nat.div_mul. lia. Qed.

Lemma mod_exact (n q c : nat) : n = (q * c)%nat -> (n mod c = 0)%nat.
Proof. intros ->. apply Nat.Div0.mod_mul. Qed.

(** ** Finite sums *)

Lemma rsum_ext (n : nat) (f g : nat -> R) :
  (forall i, (i < n)%nat -> f i = g i) -> rsum n f = rsum n g.
Proof.
  induction n as [|n IH]; intros H; simpl.
  - reflexivity.
  - rewrite IH by (intros i Hi; apply H; lia). rewrite H by lia. reflexivity.
Qed.

Lemma rsum_div (n : nat) (f : nat -> R) (d : R) :
  rsum n (fun i => f i / d) = rsum n f / d.
Proof.
  induction n as [|n IH]; simpl.
  - unfold Rdiv. ring.
  - rewrite IH. unfold Rdiv. ring.
Qed.

Lemma rsum_nonneg (n : nat) (f : nat -> R) :
  (forall i, (i < n)%nat -> 0 <= f i) -> 0 <= rsum n f.
Proof.
  induction n as [|n IH]; intros H; simpl.
  - lra.
  - assert (0 <= rsum n f) by (apply IH; intros i Hi; apply H; lia).
    assert (0 <= f n) by (apply H; lia). lra.
Qed.

Lemma rsum_pos (n : nat) (f : nat -> R) :
  (0 < n)%nat -> (forall i, (i < n)%nat -> 0 < f i) -> 0 < rsum n f.
Proof.
  intros Hn H. destruct n as [|n]; [lia|]. simpl.
  assert (0 <= rsum n f).
  { apply rsum_nonneg. intros i Hi. apply Rlt_le, H. lia. }
  assert (0 < f n) by (apply H; lia). lra.
Qed.

(** ** Softmax *)

Section SoftmaxFacts.

Variable n : nat.
Variable e : nat -> R.

Let Z_ := rsum n (fun i => exp (e i)).

Lemma softmax_denominator_pos : (0 < n)%nat -> 0 < Z_.
Proof. intros Hn. apply rsum_pos; [exact Hn | intros i _; apply exp_pos]. Qed.

Lemma softmax_sum_one : (0 < n)%nat -> rsum n (fun i => exp (e i) / Z_) = 1.
Proof.
  intros Hn. rewrite rsum_div. fold Z_.
  pose proof (softmax_denominator_pos Hn). field. lra.
Qed.

End SoftmaxFacts.

(** ** Values of the activations at zero *)

Lemma sigmoid_0 : sigmoid 0 = 1 / 2.
Proof. unfold sigmoid. rewrite Ropp_0, exp_0. lra. Qed.

Lemma tanh_0 : tanh 0 = 0.
Proof. unfold tanh. rewrite sinh_0. unfold Rdiv. ring. Qed.

Lemma Rmax_0_1 : Rmax 0 1 = 1.
Proof. apply Rmax_right. lra. Qed.

(** ** What each tensor operation returns on operands of the right shape *)

Lemma get_tanh (x : tensor) (k : nat) :
  get (mkT (shape x) (map tanh (data x))) k = tanh (get x k).
Proof.
  unfold get. cbn [data].
  rewrite <- (map_nth tanh (data x) 0 k), tanh_0. reflexivity.
Qed.

Lemma bsel_small (d i : nat) : (i < d)%nat -> bsel d i = i.
Proof.
  intros Hi. unfold bsel. destruct (Nat.eqb_spec d 1) as [->|_]; lia.
Qed.

Lemma bcompat_refl (a : nat) : bcompat a a = true.
Proof. unfold bcompat. rewrite Nat.eqb_refl. reflexivity. Qed.

Lemma bdim_refl (a : nat) : bdim a a = a.
Proof. unfold bdim. destruct (a =? 1)%nat; reflexivity. Qed.

Lemma shape_eqb_refl (sh : list nat) : shape_eqb sh sh = true.
Proof.
  induction sh as [|x sh IH]; simpl; [reflexivity|].
  rewrite Nat.eqb_refl, IH. reflexivity.
Qed.

Lemma view2_ok (cols q : nat) (t : tensor) :
  (0 < cols)%nat -> numel (shape t) = (q * cols)%nat ->
  torch.view2 cols t = Ok (mkT [q; cols] (data t)).
Proof.
  intros Hc Hn. unfold torch.view2. destruct cols as [|c]; [lia|].
  rewrite (mod_exact _ _ _ Hn), (div_exact _ _ _ Hc Hn). reflexivity.
Qed.


Lemma permute10_ok (t : tensor) (r c : nat) :
  shape t = [r; c] ->
  exists y, torch.permute10 t = Ok y /\ shape y = [c; r] /\
    forall i j, (i < r)%nat -> (j < c)%nat -> get y (j * r + i) = get t (i * c + j).
Proof.
  intros Hs. unfold torch.permute10. rewrite Hs.
  eexists; split; [reflexivity|]. split; [reflexivity|].
  intros i j Hi Hj. rewrite get_mkT by (apply idx_lt; assumption).
  rewrite idx_mod, idx_div by exact Hi. reflexivity.
Qed.

Lemma permute102_ok (t : tensor) (a b c : nat) :
  shape t = [a; b; c] ->
  exists y, torch.permute102 t = Ok y /\ shape y = [b; a; c].
Proof.
  intros Hs. unfold torch.permute102. rewrite Hs.
  eexists; split; reflexivity.
Qed.

Lemma expand3_ok (t : tensor) (s b c : nat) :
  shape t = [1%nat; b; c] ->
  exists y, torch.expand3 s b c t = Ok y /\ shape y = [s; b; c].
Proof.
  intros Hs. unfold torch.expand3. rewrite Hs.
  rewrite !Nat.eqb_refl, orb_true_r. simpl.
  eexists; split; reflexivity.
Qed.

Lemma add_ok (a b : tensor) (r c : nat) :
  shape a = [r; c] -> shape b = [r; c] ->
  exists y, torch.add a b = Ok y /\ shape y = [r; c] /\
    forall k, (k < r * c)%nat -> get y k = get a k + get b k.
Proof.
  intros Ha Hb. unfold torch.add. rewrite Ha, Hb.
  rewrite !bcompat_refl, !bdim_refl. simpl.
  eexists; split; [reflexivity|]. split; [reflexivity|].
  intros k Hk. rewrite get_mkT by exact Hk.
  assert (Hc : (0 < c)%nat) by (destruct c; [lia | lia]).
  rewrite (bsel_small _ _ (div_lt_rows _ _ _ Hk)), (bsel_small _ _ (mod_lt_cols _ _ _ Hk)).
  rewrite <- (idx_split k c Hc). reflexivity.
Qed.

Lemma cat1_ok (a b : tensor) (r c1 c2 : nat) :
  shape a = [r; c1] -> shape b = [r; c2] ->
  exists y, torch.cat1 a b = Ok y /\ shape y = [r; (c1 + c2)%nat].
Proof.
  intros Ha Hb. unfold torch.cat1. rewrite Ha, Hb, Nat.eqb_refl.
  eexists; split; reflexivity.
Qed.

Lemma bmm_ok (a b : tensor) (n p m q : nat) :
  shape a = [n; p; m] -> shape b = [n; m; q] ->
  exists y, torch.bmm a b = Ok y /\ shape y = [n; p; q].
Proof.
  intros Ha Hb. unfold torch.bmm. rewrite Ha, Hb, !Nat.eqb_refl. simpl.
  eexists; split; reflexivity.
Qed.


Lemma row_ok (x : ltensor) (r c i : nat) :
  lshape x = [r; c] -> (i < r)%nat ->
  torch.row x i = Ok (mkL [c] (tab c (fun j => lget x (i * c + j)))).
Proof.
  intros Hs Hi. unfold torch.row. rewrite Hs.
  destruct (Nat.ltb_spec i r) as [_|H]; [reflexivity | lia].
Qed.

Lemma Linear_ok (l : nn.Linear.t) (x : tensor) (n k : nat) :
  shape x = [n; k] -> k = nn.Linear.in_features l ->
  exists y, nn.Linear.forward l x = Ok y /\ shape y = [n; nn.Linear.out_features l].
Proof.
  intros Hs Hk. unfold nn.Linear.forward. rewrite Hs, Hk, Nat.eqb_refl.
  eexists; split; reflexivity.
Qed.

Lemma Linear_get (l : nn.Linear.t) (x y : tensor) (n k : nat) :
  shape x = [n; k] -> k = nn.Linear.in_features l ->
  nn.Linear.forward l x = Ok y ->
  forall r o, (r < n)%nat -> (o < nn.Linear.out_features l)%nat ->
    get y (r * nn.Linear.out_features l + o)
    = rsum k (fun i => nn.Linear.weight l o i * get x (r * k + i)) + nn.Linear.bias l o.
Proof.
  intros Hs Hk E r o Hr Ho. unfold nn.Linear.forward in E.
  rewrite Hs, <- Hk, Nat.eqb_refl in E. injection E as <-.
  rewrite get_mkT by (apply idx_lt; assumption).
  rewrite idx_mod, idx_div by exact Ho. reflexivity.
Qed.

Lemma expand3_get (t y : tensor) (s b c : nat) :
  shape t = [1%nat; b; c] -> torch.expand3 s b c t = Ok y ->
  forall i j f, (i < s)%nat -> (j < b)%nat -> (f < c)%nat ->
    get y ((i * b + j) * c + f) = get t (j * c + f).
Proof.
  intros Hs E i j f Hi Hj Hf. unfold torch.expand3 in E.
  rewrite Hs, !Nat.eqb_refl, orb_true_r in E. cbn [orb andb] in E.
  injection E as <-.
  rewrite get_mkT by (apply idx_lt; [apply idx_lt|]; assumption).
  rewrite (idx_mod (i * b + j) f c Hf), (idx_div (i * b + j) f c Hf).
  rewrite (idx_mod i j b Hj).
  replace (((i * b + j) * c + f) / (b * c))%nat with i.
  - rewrite (bsel_small b j Hj), (bsel_small c f Hf). reflexivity.
  - symmetry. replace ((i * b + j) * c + f)%nat with (i * (b * c) + (j * c + f))%nat by lia.
    apply idx_div. apply idx_lt; assumption.
Qed.

Lemma Embedding_ok (e : nn.Embedding.t) (x : ltensor) :
  forallb (nn.Embedding.in_range e) (ldata x) = true ->
  exists y, nn.Embedding.forward e x = Ok y
            /\ shape y = lshape x ++ [nn.Embedding.embedding_dim e].
Proof.
  intros H. unfold nn.Embedding.forward. rewrite H.
  eexists; split; reflexivity.
Qed.

Lemma Softmax0_ok (x : tensor) (r c : nat) :
  shape x = [r; c] ->
  exists y, nn.Softmax.forward0 x = Ok y /\ shape y = [r; c] /\
    forall k, (k < r * c)%nat ->
      get y k = exp (get x k) / rsum r (fun i => exp (get x (i * c + k mod c))).
Proof.
  intros Hs. unfold nn.Softmax.forward0. rewrite Hs.
  replace (numel [c]) with c by (simpl; lia).
  eexists; split; [reflexivity|]. split; [reflexivity|].
  intros k Hk. rewrite get_mkT by exact Hk. reflexivity.
Qed.

Lemma Softmax1_ok (x : tensor) (r c : nat) :
  shape x = [r; c] ->
  exists y, nn.Softmax.forward1 x = Ok y /\ shape y = [r; c] /\
    forall k, (k < r * c)%nat ->
      get y k = exp (get x k) / rsum c (fun j => exp (get x ((k / c) * c + j))).
Proof.
  intros Hs. unfold nn.Softmax.forward1. rewrite Hs.
  eexists; split; [reflexivity|]. split; [reflexivity|].
  intros k Hk. rewrite get_mkT by exact Hk. reflexivity.
Qed.

Lemma LSTM_ok_bidirectional (l : nn.LSTM.t) (x : tensor) (L B K : nat) :
  nn.LSTM.bidirectional l = true ->
  shape x = [L; B; K] -> K = nn.LSTM.input_size l -> (0 < L)%nat ->
  exists y h c, nn.LSTM.forward l x None = Ok (y, (h, c))
    /\ shape y = [L; B; (2 * nn.LSTM.hidden_size l)%nat]
    /\ shape h = [2%nat; B; nn.LSTM.hidden_size l]
    /\ shape c = [2%nat; B; nn.LSTM.hidden_size l].
Proof.
  intros Hbi Hs HK HL. unfold nn.LSTM.forward. rewrite Hs, HK, Nat.eqb_refl.
  destruct (Nat.eqb_spec L 0) as [->|_]; [lia|].
  cbn [negb bind]. rewrite Hbi.
  do 3 eexists; split; [reflexivity|]. repeat split.
Qed.

Lemma LSTM_ok_unidirectional (l : nn.LSTM.t) (x h0 c0 : tensor) (L B K : nat) :
  nn.LSTM.bidirectional l = false ->
  shape x = [L; B; K] -> K = nn.LSTM.input_size l -> (0 < L)%nat ->
  shape h0 = [1%nat; B; nn.LSTM.hidden_size l] ->
  shape c0 = [1%nat; B; nn.LSTM.hidden_size l] ->
  exists y h c, nn.LSTM.forward l x (Some (h0, c0)) = Ok (y, (h, c))
    /\ shape y = [L; B; nn.LSTM.hidden_size l]
    /\ shape h = [1%nat; B; nn.LSTM.hidden_size l]
    /\ shape c = [1%nat; B; nn.LSTM.hidden_size l].
Proof.
  intros Hbi Hs HK HL Hh Hc. unfold nn.LSTM.forward, nn.LSTM.num_directions.
  rewrite Hs, HK, Nat.eqb_refl, Hbi, Hh, Hc.
  destruct (Nat.eqb_spec L 0) as [->|_]; [lia|].
  cbn [negb]. rewrite shape_eqb_refl. cbn [bind andb].
  do 3 eexists; split; [reflexivity|]. repeat split.
Qed.

(** ** The encoder *)

Ltac shape_solve :=
  repeat match goal with
         | |- (_ :: _) = (_ :: _) => apply (f_equal2 cons); [lia|]
         end;
  reflexivity.

Lemma Linear_init_ok (i o : nat) (p : nn.Linear.parameters) (x : tensor) (n k : nat) :
  shape x = [n; k] -> k = i ->
  exists y, nn.Linear.forward (nn.Linear.init i o p) x = Ok y /\ shape y = [n; o].
Proof. intros Hs Hk. apply (Linear_ok (nn.Linear.init i o p) x n k Hs Hk). Qed.

Lemma numel3 (a b c : nat) : numel [a; b; c] = (a * b * c)%nat.
Proof. cbn [numel fold_right]. lia. Qed.

Lemma numel2 (a b : nat) : numel [a; b] = (a * b)%nat.
Proof. cbn [numel fold_right]. lia. Qed.


Lemma reduce_ok (i o : nat) (p : nn.Linear.parameters) (cols B : nat) (x : tensor) :
  (0 < o)%nat -> cols = (o * 2)%nat -> i = (o * 2)%nat -> shape x = [B; 2%nat; o] ->
  exists y,
    (x <- utils.View cols x ;;
     x <- nn.Linear.forward (nn.Linear.init i o p) x ;;
     x <- nn.ReLU.forward x ;;
     utils.Unsqueeze0 x) = Ok y
    /\ shape y = [1%nat; B; o].
Proof.
  intros Ho Hcols Hi Hs. unfold utils.View.
  rewrite (view2_ok cols B x) by (rewrite ?Hs, ?numel3; lia). cbn [bind].
  destruct (Linear_init_ok i o p (mkT [B; cols] (data x)) B cols) as (y & Ey & Sy);
    [reflexivity | lia |].
  rewrite Ey. cbn [bind]. unfold nn.ReLU.forward. cbn [bind].
  unfold utils.Unsqueeze0, torch.unsqueeze0. cbn [shape].
  eexists; split; [reflexivity|]. cbn [shape]. rewrite Sy. reflexivity.
Qed.

Lemma Encoder_forward_ok (V E H : nat) (p : Encoder.parameters) (texts : ltensor)
    (S B : nat) :
  (0 < H)%nat -> (0 < S)%nat ->
  lshape texts = [S; B] -> ids_in_range V texts = true ->
  exists x x_out hidden cell,
    Encoder.forward (Encoder.init V E H p) texts = Ok (x, x_out, (hidden, cell))
    /\ shape x = [B; S; (2 * H)%nat]
    /\ shape x_out = [(S * B)%nat; (2 * H)%nat]
    /\ shape hidden = [1%nat; B; H]
    /\ shape cell = [1%nat; B; H].
Proof.
  intros HH HS Hs Hids. unfold Encoder.forward.
  destruct (Embedding_ok (Encoder.embedding (Encoder.init V E H p)) texts)
    as (x0 & E0 & S0); [exact Hids|].
  rewrite E0. cbn [bind]. rewrite Hs in S0. cbn in S0.
  destruct (LSTM_ok_bidirectional (Encoder.lstm (Encoder.init V E H p)) x0 S B E)
    as (y & h & c & El & Sy & Sh & Sc); [reflexivity | exact S0 | reflexivity | exact HS |].
  rewrite El. cbn [bind]. cbn [Encoder.lstm Encoder.init nn.LSTM.hidden_size] in Sy, Sh, Sc.
  unfold Encoder.linear, utils.View.
  rewrite (view2_ok (2 * Encoder.hidden_size (Encoder.init V E H p)) (S * B) y)
    by (cbn [Encoder.hidden_size Encoder.init]; rewrite ?Sy, ?numel3; lia).
  cbn [bind].
  destruct (Linear_init_ok (H * 2) (H * 2) (Encoder.linear_p p)
              (mkT [(S * B)%nat; (2 * Encoder.hidden_size (Encoder.init V E H p))%nat] (data y))
              (S * B) (2 * H)) as (xo & Exo & Sxo); [reflexivity | lia |].
  cbn [Encoder.linear_fc Encoder.init]. rewrite Exo. cbn [bind].
  destruct (permute102_ok y S B (2 * H) Sy) as (xp & Exp & Sxp).
  rewrite Exp. cbn [bind].
  destruct (permute102_ok h 2 B H Sh) as (hp & Ehp & Shp).
  rewrite Ehp. cbn [bind].
  destruct (reduce_ok (H * 2) H (Encoder.reduce_hidden_p p) (H * 2) B hp)
    as (hr & Ehr & Shr); [exact HH | reflexivity | reflexivity | exact Shp |].
  unfold Encoder.reduce_hidden. cbn [Encoder.reduce_hidden_fc Encoder.hidden_size Encoder.init].
  rewrite Ehr. cbn [bind].
  destruct (permute102_ok c 2 B H Sc) as (cp & Ecp & Scp).
  rewrite Ecp. cbn [bind].
  destruct (reduce_ok (H * 2) H (Encoder.reduce_cell_p p) (H * 2) B cp)
    as (cr & Ecr & Scr); [exact HH | reflexivity | reflexivity | exact Scp |].
  unfold Encoder.reduce_cell. cbn [Encoder.reduce_cell_fc Encoder.hidden_size Encoder.init].
  rewrite Ecr. cbn [bind].
  exists xp, xo, hr, cr. split; [reflexivity|].
  repeat split; try assumption. rewrite Sxo. shape_solve.
Qed.


(** ** Attention *)

Lemma Attention_forward_unfold (m : Attention.t) (hidden eo ef cov : tensor) :
  Attention.forward m hidden eo ef cov =
  (x <- Attention.summed_features m hidden eo ef cov ;;
   '(batch, sequence_len, hidden_size) <- torch.shape3 eo ;;
   a <- Attention.attention m x ;;
   context <- torch.bmm a eo ;;
   context <- torch.view2 (2 * Attention.hidden_size m) context ;;
   a <- torch.view2 sequence_len a ;;
   a <- torch.permute10 a ;;
   cov <- torch.add cov a ;;
   Ok (context, a, cov)).
Proof.
  unfold Attention.forward, Attention.summed_features.
  destruct (torch.shape3 eo) as [[[b s] hs]|e]; cbn [bind]; [|reflexivity].
  destruct (Attention.features m hidden) as [df|e]; cbn [bind]; [|reflexivity].
  destruct (torch.expand3 s b hs df) as [df1|e]; cbn [bind]; [|reflexivity].
  destruct (torch.view2 hs df1) as [df2|e]; cbn [bind]; [|reflexivity].
  destruct (Attention.coverage m cov) as [cf|e]; cbn [bind]; [|reflexivity].
  destruct (torch.add ef df2) as [a|e]; cbn [bind]; [|reflexivity].
  destruct (torch.add a cf) as [a1|e]; cbn [bind]; reflexivity.
Qed.

(** The three feature tensors have one row per (position, batch element)
    pair; the batch dimension [B] here is the one of the operands, whatever
    [batch_size] the module was built with.  Row [s * B + b] of the sum adds
    the encoder features of that row, the projected decoder state of batch
    element [b] and the projected coverage of [(s, b)]. *)
Lemma summed_features_ok (H bs : nat) (p : Attention.parameters)
    (hidden eo ef cov : tensor) (S B : nat) :
  (0 < H)%nat ->
  shape hidden = [B; (2 * H)%nat] -> shape eo = [B; S; (2 * H)%nat] ->
  shape ef = [(S * B)%nat; (2 * H)%nat] -> shape cov = [S; B] ->
  exists x, Attention.summed_features (Attention.init H bs p) hidden eo ef cov = Ok x
    /\ shape x = [(S * B)%nat; (2 * H)%nat]
    /\ forall s b j, (s < S)%nat -> (b < B)%nat -> (j < 2 * H)%nat ->
         get x ((s * B + b) * (2 * H) + j)
         = get ef ((s * B + b) * (2 * H) + j)
           + (rsum (2 * H) (fun i => nn.Linear.p_weight (Attention.features_p p) j i
                                     * get hidden (b * (2 * H) + i))
              + nn.Linear.p_bias (Attention.features_p p) j)
           + (nn.Linear.p_weight (Attention.coverage_p p) j 0%nat * get cov (s * B + b)
              + nn.Linear.p_bias (Attention.coverage_p p) j).
Proof.
  intros HH Sh Seo Sef Scov. unfold Attention.summed_features, torch.shape3.
  rewrite Seo. cbn [bind].
  unfold Attention.features. cbn [Attention.features_fc Attention.init].
  destruct (Linear_init_ok (H * 2) (H * 2) (Attention.features_p p) hidden B (2 * H))
    as (f & Ef & Sf); [exact Sh | lia |].
  assert (Hin : (2 * H)%nat
                = nn.Linear.in_features
                    (nn.Linear.init (H * 2) (H * 2) (Attention.features_p p)))
    by (cbn [nn.Linear.init nn.Linear.in_features]; lia).
  pose proof (Linear_get _ hidden f B (2 * H) Sh Hin Ef) as Gf.
  cbn [nn.Linear.init nn.Linear.out_features nn.Linear.weight nn.Linear.bias] in Gf.
  rewrite Ef. cbn [bind]. unfold utils.Unsqueeze0, torch.unsqueeze0. cbn [bind].
  assert (Su : shape (mkT (1%nat :: shape f) (data f)) = [1%nat; B; (2 * H)%nat])
    by (cbn [shape]; rewrite Sf; shape_solve).
  destruct (expand3_ok (mkT (1%nat :: shape f) (data f)) S B (2 * H) Su) as (d & Ed & Sd).
  pose proof (expand3_get _ d S B (2 * H) Su Ed) as Gd.
  rewrite Ed. cbn [bind].
  rewrite (view2_ok (2 * H) (S * B) d) by (rewrite ?Sd, ?numel3; lia). cbn [bind].
  unfold Attention.coverage, utils.View. cbn [Attention.coverage_fc Attention.init].
  rewrite (view2_ok 1 (S * B) cov) by (rewrite ?Scov, ?numel2; lia). cbn [bind].
  destruct (Linear_init_ok 1 (H * 2) (Attention.coverage_p p)
              (mkT [(S * B)%nat; 1%nat] (data cov)) (S * B) 1)
    as (c & Ec & Sc); [reflexivity | reflexivity |].
  pose proof (Linear_get (nn.Linear.init 1 (H * 2) (Attention.coverage_p p))
                (mkT [(S * B)%nat; 1%nat] (data cov)) c (S * B) 1
                eq_refl eq_refl Ec) as Gc.
  cbn [nn.Linear.init nn.Linear.out_features nn.Linear.weight nn.Linear.bias] in Gc.
  rewrite Ec. cbn [bind].
  destruct (add_ok ef (mkT [(S * B)%nat; (2 * H)%nat] (data d)) (S * B) (2 * H))
    as (a & Ea & Sa & Ga); [exact Sef | reflexivity |].
  rewrite Ea. cbn [bind].
  destruct (add_ok a c (S * B) (2 * H)) as (a1 & Ea1 & Sa1 & Ga1);
    [exact Sa | rewrite Sc; shape_solve |].
  rewrite Ea1. exists a1. split; [reflexivity|]. split; [exact Sa1|].
  intros s b j Hs Hb Hj.
  assert (Hr : (s * B + b < S * B)%nat) by (apply idx_lt; assumption).
  assert (Hk : ((s * B + b) * (2 * H) + j < S * B * (2 * H))%nat)
    by (apply idx_lt; assumption).
  rewrite (Ga1 _ Hk), (Ga _ Hk).
  change (get (mkT [(S * B)%nat; (2 * H)%nat] (data d)) ((s * B + b) * (2 * H) + j))
    with (get d ((s * B + b) * (2 * H) + j)).
  rewrite (Gd s b j Hs Hb Hj).
  change (get (mkT (1%nat :: shape f) (data f)) (b * (2 * H) + j))
    with (get f (b * (2 * H) + j)).
  replace (b * (2 * H) + j)%nat with (b * (H * 2) + j)%nat by lia.
  rewrite (Gf b j Hb ltac:(lia)).
  replace ((s * B + b) * (2 * H) + j)%nat with ((s * B + b) * (H * 2) + j)%nat at 2 by lia.
  rewrite (Gc (s * B + b)%nat j Hr ltac:(lia)).
  cbn [rsum].
  change (get (mkT [(S * B)%nat; 1%nat] (data cov)) ((s * B + b) * 1 + 0))
    with (get cov ((s * B + b) * 1 + 0)).
  replace ((s * B + b) * 1 + 0)%nat with (s * B + b)%nat by lia.
  ring.
Qed.

(** [self.attention] on [n * batch_size] rows of features: the scores are
    laid out as an [[n, batch_size]] matrix and every column of it is
    normalised on its own; the result is the transposed matrix with a unit
    dimension in the middle. *)
Lemma attention_seq_ok (H bs : nat) (p : Attention.parameters) (x : tensor) (n : nat) :
  (0 < bs)%nat -> shape x = [(n * bs)%nat; (2 * H)%nat] ->
  exists sc w,
    Attention.scores (Attention.init H bs p) x = Ok sc
    /\ Attention.attention (Attention.init H bs p) x = Ok w
    /\ shape sc = [(n * bs)%nat; 1%nat]
    /\ shape w = [bs; 1%nat; n]
    /\ (forall i j, (i < n)%nat -> (j < bs)%nat ->
          get w (j * n + i)
          = exp (get sc (i * bs + j)) / rsum n (fun i' => exp (get sc (i' * bs + j))))
    /\ (forall r, (r < n * bs)%nat ->
          get sc r
          = rsum (2 * H) (fun j => nn.Linear.p_weight (Attention.attention_p p) 0%nat j
                                   * tanh (get x (r * (2 * H) + j)))
            + nn.Linear.p_bias (Attention.attention_p p) 0%nat).
Proof.
  intros Hbs Sx.
  unfold Attention.scores, Attention.attention, nn.Tanh.forward. cbn [bind].
  cbn [Attention.attention_fc Attention.batch_size Attention.init].
  destruct (Linear_init_ok (H * 2) 1 (Attention.attention_p p)
              (mkT (shape x) (map tanh (data x))) (n * bs) (2 * H))
    as (sc & Esc & Ssc); [exact Sx | lia |].
  assert (Hin : (2 * H)%nat
                = nn.Linear.in_features (nn.Linear.init (H * 2) 1 (Attention.attention_p p)))
    by (cbn [nn.Linear.init nn.Linear.in_features]; lia).
  pose proof (Linear_get _ (mkT (shape x) (map tanh (data x))) sc (n * bs) (2 * H)
                Sx Hin Esc) as Gsc.
  cbn [nn.Linear.init nn.Linear.out_features nn.Linear.weight nn.Linear.bias] in Gsc.
  rewrite Esc. cbn [bind]. unfold utils.View.
  rewrite (view2_ok bs n sc) by (rewrite ?Ssc, ?numel2; lia). cbn [bind].
  destruct (Softmax0_ok (mkT [n; bs] (data sc)) n bs) as (y & Ey & Sy & Gy);
    [reflexivity|].
  rewrite Ey. cbn [bind]. unfold utils.Permute10.
  destruct (permute10_ok y n bs Sy) as (z & Ez & Sz & Gz).
  rewrite Ez. cbn [bind]. unfold utils.Unsqueeze1, torch.unsqueeze1. rewrite Sz.
  exists sc, (mkT [bs; 1%nat; n] (data z)).
  split; [reflexivity|]. split; [reflexivity|]. split; [exact Ssc|].
  split; [reflexivity|]. split.
  - intros i j Hi Hj.
    change (get (mkT [bs; 1%nat; n] (data z)) (j * n + i)) with (get z (j * n + i)).
    rewrite (Gz i j Hi Hj), (Gy (i * bs + j)%nat) by (apply idx_lt; assumption).
    rewrite idx_mod by exact Hj. reflexivity.
  - intros r Hr. specialize (Gsc r 0%nat Hr ltac:(lia)).
    replace (r * 1 + 0)%nat with r in Gsc by lia. rewrite Gsc.
    f_equal. apply rsum_ext. intros j Hj. rewrite get_tanh. reflexivity.
Qed.

(** On operands of the batch size the module was built for, [attend]
    returns; the weights of every batch element are the softmax, over the
    source positions, of the scores of that element. *)
Lemma Attention_forward_ok (H B : nat) (p : Attention.parameters)
    (hidden eo ef cov : tensor) (S : nat) :
  (0 < H)%nat -> (0 < B)%nat -> (0 < S)%nat ->
  shape hidden = [B; (2 * H)%nat] -> shape eo = [B; S; (2 * H)%nat] ->
  shape ef = [(S * B)%nat; (2 * H)%nat] -> shape cov = [S; B] ->
  exists context a cov' x sc,
    Attention.forward (Attention.init H B p) hidden eo ef cov = Ok (context, a, cov')
    /\ Attention.summed_features (Attention.init H B p) hidden eo ef cov = Ok x
    /\ Attention.scores (Attention.init H B p) x = Ok sc
    /\ shape context = [B; (2 * H)%nat]
    /\ shape a = [S; B]
    /\ shape cov' = [S; B]
    /\ softmax_columns S B sc a
    /\ (forall k, (k < S * B)%nat -> get cov' k = get cov k + get a k)
    /\ (forall s b, (s < S)%nat -> (b < B)%nat ->
          get sc (s * B + b) = score_at H B p hidden ef cov s b).
Proof.
  intros HH HB HS Sh Seo Sef Scov.
  rewrite Attention_forward_unfold.
  destruct (summed_features_ok H B p hidden eo ef cov S B HH Sh Seo Sef Scov)
    as (x & Ex & Sx & Gx).
  rewrite Ex. cbn [bind]. unfold torch.shape3. rewrite Seo. cbn [bind].
  destruct (attention_seq_ok H B p x S HB Sx)
    as (sc & w & Esc & Ew & Ssc & Sw & Gw & Gsc).
  rewrite Ew. cbn [bind].
  destruct (bmm_ok w eo B 1 S (2 * H) Sw Seo) as (c0 & Ec0 & Sc0).
  rewrite Ec0. cbn [bind]. cbn [Attention.hidden_size Attention.init].
  rewrite (view2_ok (2 * H) B c0) by (rewrite ?Sc0, ?numel3; lia). cbn [bind].
  rewrite (view2_ok S B w) by (rewrite ?Sw, ?numel3; lia). cbn [bind].
  destruct (permute10_ok (mkT [B; S] (data w)) B S) as (a & Ea & Sa & Ga);
    [reflexivity|].
  rewrite Ea. cbn [bind].
  destruct (add_ok cov a S B Scov Sa) as (cov' & Ecov & Scov' & Gcov).
  rewrite Ecov. cbn [bind].
  exists (mkT [B; (2 * H)%nat] (data c0)), a, cov', x, sc.
  split; [reflexivity|]. split; [reflexivity|]. split; [exact Esc|].
  split; [reflexivity|]. split; [exact Sa|]. split; [exact Scov'|].
  split; [|split; [exact Gcov|]].
  - intros k Hk.
    pose proof (div_lt_rows k S B Hk) as Hi.
    pose proof (mod_lt_cols k S B Hk) as Hj.
    rewrite (idx_split k B HB) at 1 2.
    rewrite (Ga (k mod B)%nat (k / B)%nat Hj Hi).
    change (get (mkT [B; S] (data w)) (k mod B * S + k / B))
      with (get w (k mod B * S + k / B)).
    rewrite (Gw (k / B)%nat (k mod B)%nat Hi Hj). reflexivity.
  - intros s b Hs Hb. rewrite (Gsc (s * B + b)%nat) by (apply idx_lt; assumption).
    unfold score_at. cbv zeta. f_equal. apply rsum_ext. intros j Hj.
    rewrite (Gx s b j Hs Hb Hj). reflexivity.
Qed.

(** ** Consequences of being a softmax *)

Lemma softmax_columns_pos (n w : nat) (e a : tensor) (k : nat) :
  softmax_columns n w e a -> (k < n * w)%nat -> 0 < get a k.
Proof.
  intros Hs Hk. rewrite (Hs k Hk).
  apply Rdiv_lt_0_compat; [apply exp_pos|].
  apply rsum_pos; [destruct n; lia | intros i _; apply exp_pos].
Qed.

Lemma softmax_columns_sum (n w : nat) (e a : tensor) (b : nat) :
  softmax_columns n w e a -> (0 < n)%nat -> (b < w)%nat ->
  rsum n (fun s => get a (s * w + b)) = 1.
Proof.
  intros Hs Hn Hb.
  rewrite (rsum_ext n _
             (fun s => exp (get e (s * w + b))
                       / rsum n (fun i => exp (get e (i * w + b))))).
  - apply (softmax_sum_one n (fun i => get e (i * w + b)) Hn).
  - intros s Hsn. rewrite (Hs (s * w + b)%nat) by (apply idx_lt; assumption).
    rewrite idx_mod by exact Hb. reflexivity.
Qed.

Lemma softmax_rows_pos (n w : nat) (x : tensor) (k : nat) :
  softmax_rows n w x -> (k < n * w)%nat -> 0 < get x k.
Proof.
  intros (z & Hz) Hk. rewrite (Hz k Hk).
  apply Rdiv_lt_0_compat; [apply exp_pos|].
  apply rsum_pos; [destruct w; lia | intros i _; apply exp_pos].
Qed.

Lemma softmax_rows_sum (n w : nat) (x : tensor) (i : nat) :
  softmax_rows n w x -> (0 < w)%nat -> (i < n)%nat ->
  rsum w (fun j => get x (i * w + j)) = 1.
Proof.
  intros (z & Hz) Hw Hi.
  rewrite (rsum_ext w _
             (fun j => exp (get z (i * w + j))
                       / rsum w (fun j' => exp (get z (i * w + j'))))).
  - apply (softmax_sum_one w (fun j => get z (i * w + j)) Hw).
  - intros j Hj. rewrite (Hz (i * w + j)%nat) by (apply idx_lt; assumption).
    rewrite idx_div by exact Hj. reflexivity.
Qed.

(** ** The decoder *)

Lemma Decoder_forward_ok (V B E H S : nat) (p : Decoder.parameters)
    (x_in : ltensor) (hidden_in : tensor * tensor) (eo ef ctx cov : tensor) :
  (0 < H)%nat -> (0 < B)%nat -> (0 < S)%nat ->
  decoder_operands V B H S x_in hidden_in eo ef ctx cov ->
  exists r,
    Decoder.forward (Decoder.init V B E H p) x_in hidden_in eo ef ctx cov = Ok r
    /\ decoder_result V B H S cov r.
Proof.
  intros HH HB HS [Sx Lx Rx Sh Sc Seo Sef Sctx Scov].
  destruct hidden_in as [h0 c0]. cbn [fst snd] in Sh, Sc.
  unfold Decoder.forward.
  destruct (Embedding_ok (Decoder.embedding (Decoder.init V B E H p)) x_in)
    as (x0 & E0 & S0); [exact Rx|].
  rewrite E0. cbn [bind]. rewrite Sx in S0. cbn in S0.
  destruct (cat1_ok ctx x0 B (2 * H) E Sctx S0) as (x1 & E1 & S1).
  rewrite E1. cbn [bind].
  unfold Decoder.context. cbn [Decoder.context_fc Decoder.init].
  destruct (Linear_init_ok (H * 2 + E) E (Decoder.context_p p) x1 B (2 * H + E))
    as (x2 & E2 & S2); [exact S1 | lia |].
  rewrite E2. cbn [bind]. unfold utils.Unsqueeze0, torch.unsqueeze0. cbn [bind].
  destruct (LSTM_ok_unidirectional (Decoder.lstm (Decoder.init V B E H p))
              (mkT (1%nat :: shape x2) (data x2)) h0 c0 1 B E)
    as (y & h & c & El & Sy & Sh' & Sc');
    [reflexivity | cbn [shape]; rewrite S2; reflexivity | reflexivity | lia
    | exact Sh | exact Sc |].
  rewrite El. cbn [bind].
  cbn [Decoder.lstm Decoder.init nn.LSTM.hidden_size] in Sy, Sh', Sc'.
  cbn [Decoder.hidden_size Decoder.init].
  rewrite (view2_ok H B h) by (rewrite ?Sh', ?numel3; lia). cbn [bind].
  rewrite (view2_ok H B c) by (rewrite ?Sc', ?numel3; lia). cbn [bind].
  destruct (cat1_ok (mkT [B; H] (data h)) (mkT [B; H] (data c)) B H H)
    as (ho & Eho & Sho); [reflexivity | reflexivity |].
  rewrite Eho. cbn [bind].
  assert (Sho' : shape ho = [B; (2 * H)%nat]) by (rewrite Sho; shape_solve).
  destruct (Attention_forward_ok H B (Decoder.attention_p p) ho eo ef cov S
              HH HB HS Sho' Seo Sef Scov)
    as (ctx' & a & cov' & xs & sc & Ea & _ & _ & Sctx' & Sa & Scov' & Ga & Gcov & _).
  cbn [Decoder.attention Decoder.init]. rewrite Ea. cbn [bind].
  rewrite (view2_ok H B y) by (rewrite ?Sy, ?numel3; lia). cbn [bind].
  destruct (cat1_ok (mkT [B; H] (data y)) ctx' B H (2 * H)) as (x3 & E3 & S3);
    [reflexivity | exact Sctx' |].
  rewrite E3. cbn [bind].
  unfold Decoder.out. cbn [Decoder.out_fc1 Decoder.out_fc2 Decoder.init].
  destruct (Linear_init_ok (H * 3) H (Decoder.out_p1 p) x3 B (H + 2 * H))
    as (x4 & E4 & S4); [exact S3 | lia |].
  rewrite E4. cbn [bind].
  destruct (Linear_init_ok H V (Decoder.out_p2 p) x4 B H) as (x5 & E5 & S5);
    [exact S4 | reflexivity |].
  rewrite E5. cbn [bind].
  destruct (Softmax1_ok x5 B V S5) as (x6 & E6 & S6 & G6).
  rewrite E6. cbn [bind].
  eexists. split; [reflexivity|].
  constructor; try assumption.
  - exists x5. exact G6.
  - exists sc. exact Ga.
Qed.

(** ** The sequence model *)


Lemma row_in_range (V T B : nat) (x : ltensor) (i : nat) :
  token_matrix V T B x -> (i < T)%nat ->
  exists r, torch.row x i = Ok r /\ lshape r = [B] /\ length (ldata r) = B
            /\ ids_in_range V r = true.
Proof.
  intros [Hs Hl Hr] Hi. rewrite (row_ok x T B i Hs Hi).
  eexists; split; [reflexivity|]. split; [reflexivity|].
  split; [apply length_tab|].
  unfold ids_in_range in *. cbn [ldata].
  apply forallb_forall. intros z Hz.
  unfold tab in Hz. apply in_map_iff in Hz. destruct Hz as (j & <- & Hj).
  apply in_seq in Hj.
  rewrite forallb_forall in Hr. apply Hr. unfold lget. apply nth_In.
  rewrite Hl. apply idx_lt; lia.
Qed.

Section Loop.

Variables V B L E H : nat.
Variable p : PointerGeneratorNetwork.parameters.
Variable summaries : ltensor.
Variable hidden : tensor * tensor.
Variables eo ef : tensor.
Variables T N : nat.

Let m := PointerGeneratorNetwork.init V B L E H p.

Hypothesis HH : (0 < H)%nat.
Hypothesis HB : (0 < B)%nat.
Hypothesis HN : (0 < N)%nat.
Hypothesis Hsum : token_matrix V T B summaries.
Hypothesis Hh : shape (fst hidden) = [1%nat; B; H].
Hypothesis Hc : shape (snd hidden) = [1%nat; B; H].
Hypothesis Heo : shape eo = [B; N; (2 * H)%nat].
Hypothesis Hef : shape ef = [(N * B)%nat; (2 * H)%nat].

Lemma calls_ok (len : nat) :
  forall (i : nat) (ctx cov : tensor),
    (i + len <= T)%nat -> shape ctx = [B; (2 * H)%nat] -> shape cov = [N; B] ->
    exists cs,
      PointerGeneratorNetwork.calls m summaries hidden eo ef (seq i len) ctx cov = Ok cs
      /\ length cs = len
      /\ threaded V B H N hidden i ctx cov cs.
Proof.
  induction len as [|len IH]; intros i ctx cov Hi Sctx Scov.
  - exists []. split; [reflexivity|]. split; [reflexivity | constructor].
  - cbn [seq PointerGeneratorNetwork.calls].
    destruct (row_in_range V T B summaries i Hsum) as (x_in & Er & Sr & Lr & Rr); [lia|].
    rewrite Er. cbn [bind].
    destruct (Decoder_forward_ok V B E H N (PointerGeneratorNetwork.decoder_p p)
                x_in hidden eo ef ctx cov HH HB HN) as (r & Ed & Rd).
    { constructor; assumption. }
    change (PointerGeneratorNetwork.decoder m)
      with (Decoder.init V B E H (PointerGeneratorNetwork.decoder_p p)).
    rewrite Ed. cbn [bind].
    set (c := PointerGeneratorNetwork.mkCall i hidden ctx cov r).
    destruct (IH (S i) (PointerGeneratorNetwork.ret_context c)
                (PointerGeneratorNetwork.ret_coverage c)) as (cs & Ecs & Lcs & Tcs).
    + lia.
    + exact (res_ctx_shape _ _ _ _ _ _ Rd).
    + exact (res_cov_shape _ _ _ _ _ _ Rd).
    + rewrite Ecs. cbn [bind]. exists (c :: cs).
      split; [reflexivity|]. split; [cbn [length]; lia|].
      constructor; try reflexivity; assumption.
Qed.

End Loop.

Lemma loop_calls (m : PointerGeneratorNetwork.t) (summaries : ltensor)
    (hidden : tensor * tensor) (eo ef : tensor) (range : list nat) :
  forall st,
    PointerGeneratorNetwork.loop m summaries hidden eo ef range st =
    (cs <- PointerGeneratorNetwork.calls m summaries hidden eo ef range
             (PointerGeneratorNetwork.context st) (PointerGeneratorNetwork.coverage st) ;;
     Ok (fold_left record_call cs st)).
Proof.
  induction range as [|i rest IH]; intros st.
  - reflexivity.
  - cbn [PointerGeneratorNetwork.loop PointerGeneratorNetwork.calls].
    unfold PointerGeneratorNetwork.body.
    destruct (torch.row summaries i) as [x_in|e]; cbn [bind]; [|reflexivity].
    destruct (Decoder.forward (PointerGeneratorNetwork.decoder m) x_in hidden eo ef
                (PointerGeneratorNetwork.context st) (PointerGeneratorNetwork.coverage st))
      as [[[[[x h] c] a] cv]|e]; cbn [bind]; [|reflexivity].
    rewrite IH.
    cbn [PointerGeneratorNetwork.context PointerGeneratorNetwork.coverage
         PointerGeneratorNetwork.ret_context PointerGeneratorNetwork.ret_coverage
         PointerGeneratorNetwork.returned].
    destruct (PointerGeneratorNetwork.calls m summaries hidden eo ef rest c cv)
      as [cs|e]; cbn [bind]; reflexivity.
Qed.

Lemma recorded_lists (cs : list PointerGeneratorNetwork.call) :
  forall st,
    PointerGeneratorNetwork.outputs (fold_left record_call cs st)
    = PointerGeneratorNetwork.outputs st ++ map PointerGeneratorNetwork.ret_out cs
    /\ PointerGeneratorNetwork.attention_list (fold_left record_call cs st)
       = PointerGeneratorNetwork.attention_list st
         ++ map PointerGeneratorNetwork.ret_attention cs
    /\ PointerGeneratorNetwork.coverage_list (fold_left record_call cs st)
       = PointerGeneratorNetwork.coverage_list st
         ++ map PointerGeneratorNetwork.ret_coverage cs.
Proof.
  induction cs as [|c cs IH]; intros st.
  - cbn [fold_left map]. rewrite !app_nil_r. repeat split.
  - cbn [fold_left map]. destruct (IH (record_call st c)) as (Ho & Ha & Hc).
    rewrite Ho, Ha, Hc. unfold record_call.
    cbn [PointerGeneratorNetwork.outputs PointerGeneratorNetwork.attention_list
         PointerGeneratorNetwork.coverage_list].
    rewrite <- !app_assoc. repeat split.
Qed.

(** The three returned lists are the three projections of the calls. *)
Lemma forward_from_calls (m : PointerGeneratorNetwork.t) (texts summaries : ltensor) :
  PointerGeneratorNetwork.forward m texts summaries =
  (cs <- PointerGeneratorNetwork.forward_calls m texts summaries ;;
   Ok (map PointerGeneratorNetwork.ret_out cs,
       map PointerGeneratorNetwork.ret_attention cs,
       map PointerGeneratorNetwork.ret_coverage cs)).
Proof.
  unfold PointerGeneratorNetwork.forward, PointerGeneratorNetwork.forward_calls.
  destruct (Encoder.forward (PointerGeneratorNetwork.encoder m) texts)
    as [[[eo ef] hidden]|e]; cbn [bind]; [|reflexivity].
  rewrite loop_calls.
  cbn [PointerGeneratorNetwork.context PointerGeneratorNetwork.coverage].
  destruct (PointerGeneratorNetwork.calls m summaries hidden eo ef
              (seq 0 (PointerGeneratorNetwork.max_summary_length m))
              (torch.zeros [PointerGeneratorNetwork.batch_size m;
                            (2 * PointerGeneratorNetwork.hidden_size m)%nat])
              (torch.zeros_like texts)) as [cs|e]; cbn [bind]; [|reflexivity].
  destruct (recorded_lists cs
              (PointerGeneratorNetwork.mkLocals
                 (torch.zeros [PointerGeneratorNetwork.batch_size m;
                               (2 * PointerGeneratorNetwork.hidden_size m)%nat])
                 (torch.zeros_like texts) [] [] [] None)) as (Ho & Ha & Hc).
  rewrite Ho, Ha, Hc. reflexivity.
Qed.

Lemma forward_calls_ok (V B L E H T N : nat) (p : PointerGeneratorNetwork.parameters)
    (texts summaries : ltensor) :
  valid_invocation V B L H T N texts summaries ->
  exists eo ef hidden cs,
    Encoder.forward
      (PointerGeneratorNetwork.encoder (PointerGeneratorNetwork.init V B L E H p)) texts
    = Ok (eo, ef, hidden)
    /\ PointerGeneratorNetwork.forward_calls
         (PointerGeneratorNetwork.init V B L E H p) texts summaries = Ok cs
    /\ length cs = L
    /\ threaded V B H N hidden 0 (torch.zeros [B; (2 * H)%nat]) (torch.zeros_like texts) cs.
Proof.
  intros [HH HB HN [Sx Lx Rx] Hsum HL].
  unfold PointerGeneratorNetwork.forward_calls.
  destruct (Encoder_forward_ok V E H (PointerGeneratorNetwork.encoder_p p) texts N B
              HH HN Sx Rx) as (eo & ef & h & c & Ee & Seo & Sef & Sh & Sc).
  change (PointerGeneratorNetwork.encoder (PointerGeneratorNetwork.init V B L E H p))
    with (Encoder.init V E H (PointerGeneratorNetwork.encoder_p p)).
  rewrite Ee. cbn [bind].
  destruct (calls_ok V B L E H p summaries (h, c) eo ef T N HH HB HN Hsum Sh Sc Seo Sef
              L 0 (torch.zeros [B; (2 * H)%nat]) (torch.zeros_like texts))
    as (cs & Ecs & Lcs & Tcs).
  - lia.
  - reflexivity.
  - unfold torch.zeros_like, torch.zeros. cbn [shape]. exact Sx.
  - exists eo, ef, (h, c), cs. split; [reflexivity|].
    split; [exact Ecs|]. split; assumption.
Qed.


(** Call [t] of a threaded list: its counter, its operands, its result. *)
Lemma threaded_nth (V B H N : nat) (hidden : tensor * tensor) (i : nat)
    (ctx cov : tensor) (cs : list PointerGeneratorNetwork.call) :
  threaded V B H N hidden i ctx cov cs ->
  forall t, (t < length cs)%nat ->
    PointerGeneratorNetwork.index (call_at cs t) = (i + t)%nat
    /\ PointerGeneratorNetwork.hidden_arg (call_at cs t) = hidden
    /\ decoder_result V B H N (PointerGeneratorNetwork.coverage_arg (call_at cs t))
         (PointerGeneratorNetwork.returned (call_at cs t))
    /\ PointerGeneratorNetwork.coverage_arg (call_at cs t)
       = match t with
         | O => cov
         | S t' => PointerGeneratorNetwork.ret_coverage (call_at cs t')
         end
    /\ PointerGeneratorNetwork.context_arg (call_at cs t)
       = match t with
         | O => ctx
         | S t' => PointerGeneratorNetwork.ret_context (call_at cs t')
         end.
Proof.
  induction 1 as [|i ctx cov c cs Hi Hh Hctx Hcov Hres Hrest IH]; intros t Ht.
  - cbn [length] in Ht. lia.
  - destruct t as [|t].
    + unfold call_at. cbn [nth]. subst.
      refine (conj _ (conj eq_refl (conj Hres (conj eq_refl eq_refl)))). lia.
    + cbn [length] in Ht.
      destruct (IH t) as (Ji & Jh & Jr & Jcov & Jctx); [lia|].
      change (call_at (c :: cs) (S t)) with (call_at cs t).
      refine (conj _ (conj Jh (conj Jr (conj _ _)))).
      * lia.
      * rewrite Jcov. destruct t; reflexivity.
      * rewrite Jctx. destruct t; reflexivity.
Qed.


(** ** The loop as a machine *)

Section Machine.

Variable m : PointerGeneratorNetwork.t.
Variable summaries : ltensor.
Variable hidden : tensor * tensor.
Variables eo ef : tensor.

Let L := PointerGeneratorNetwork.max_summary_length m.
Let step := PointerGeneratorNetwork.step m summaries hidden eo ef.
Let steps := PointerGeneratorNetwork.steps m summaries hidden eo ef.






End Machine.


(** ** Evaluating the forward pass at a concrete input *)

Tactic Notation "eval_forward" :=
  cbv -[exp tanh Rmax Rdiv IZR sigmoid Rinv Rplus Rmult Ropp Rminus].
Tactic Notation "eval_forward" "in" hyp(H) :=
  cbv -[exp tanh Rmax Rdiv IZR sigmoid Rinv Rplus Rmult Ropp Rminus] in H.

Ltac simplify_zeros H :=
  repeat (rewrite ?Rmult_0_l, ?Rmult_0_r, ?Rplus_0_l, ?Rplus_0_r,
            ?sigmoid_0, ?tanh_0, ?Rmax_0_1 in H).

Ltac valid_by_computation :=
  constructor; try lia; constructor; reflexivity.

(** The first call of a non-empty range, read back from the result of
    [calls]. *)
Lemma calls_cons_inv (m : PointerGeneratorNetwork.t) (summaries : ltensor)
    (hidden : tensor * tensor) (eo ef : tensor) (i : nat) (rest : list nat)
    (ctx cov : tensor) (cs : list PointerGeneratorNetwork.call) :
  PointerGeneratorNetwork.calls m summaries hidden eo ef (i :: rest) ctx cov = Ok cs ->
  exists x_in r cs',
    torch.row summaries i = Ok x_in
    /\ Decoder.forward (PointerGeneratorNetwork.decoder m) x_in hidden eo ef ctx cov = Ok r
    /\ cs = PointerGeneratorNetwork.mkCall i hidden ctx cov r :: cs'.
Proof.
  intros E. cbn [PointerGeneratorNetwork.calls] in E.
  apply bind_Ok in E. destruct E as (x_in & Er & E).
  apply bind_Ok in E. destruct E as (r & Ed & E).
  apply bind_Ok in E. destruct E as (cs' & _ & E). injection E as <-.
  exists x_in, r, cs'. repeat split; assumption.
Qed.

(** The state a decoder call returns is the state its recurrent layer
    produced, packed. *)
Lemma Decoder_forward_hidden_out (m : Decoder.t) (x_in : ltensor)
    (hidden_in : tensor * tensor) (eo ef ctx cov : tensor) (r : Decoder.output) :
  Decoder.forward m x_in hidden_in eo ef ctx cov = Ok r ->
  exists x y h c,
    (x <- nn.Embedding.forward (Decoder.embedding m) x_in ;;
     x <- torch.cat1 ctx x ;;
     Decoder.context m x) = Ok x
    /\ nn.LSTM.forward (Decoder.lstm m) x (Some hidden_in) = Ok (y, (h, c))
    /\ packed_state (Decoder.hidden_size m) (h, c) = Ok (let '(_, ho, _, _, _) := r in ho).
Proof.
  intros E. unfold Decoder.forward in E.
  apply bind_Ok in E. destruct E as (x0 & E0 & E).
  apply bind_Ok in E. destruct E as (x1 & E1 & E).
  apply bind_Ok in E. destruct E as (x2 & E2 & E).
  apply bind_Ok in E. destruct E as ([y [h c]] & El & E).
  apply bind_Ok in E. destruct E as (hv & Ehv & E).
  apply bind_Ok in E. destruct E as (cv & Ecv & E).
  apply bind_Ok in E. destruct E as (ho & Eho & E).
  apply bind_Ok in E. destruct E as ([[ctx' a] cov'] & _ & E).
  apply bind_Ok in E. destruct E as (x3 & _ & E).
  apply bind_Ok in E. destruct E as (x4 & _ & E).
  apply bind_Ok in E. destruct E as (x5 & _ & E).
  injection E as <-.
  exists x2, y, h, c. split.
  - rewrite E0. cbn [bind]. rewrite E1. cbn [bind]. exact E2.
  - split; [exact El|]. unfold packed_state. cbn [fst snd].
    rewrite Ehv. cbn [bind]. rewrite Ecv. cbn [bind]. exact Eho.
Qed.

(** ** A valid invocation, step by step *)

Lemma invocation_spec (V B L E H T N : nat) (p : PointerGeneratorNetwork.parameters)
    (texts summaries : ltensor) :
  valid_invocation V B L H T N texts summaries ->
  exists hidden cs,
    PointerGeneratorNetwork.forward_calls
      (PointerGeneratorNetwork.init V B L E H p) texts summaries = Ok cs
    /\ PointerGeneratorNetwork.forward
         (PointerGeneratorNetwork.init V B L E H p) texts summaries
       = Ok (map PointerGeneratorNetwork.ret_out cs,
             map PointerGeneratorNetwork.ret_attention cs,
             map PointerGeneratorNetwork.ret_coverage cs)
    /\ length cs = L
    /\ threaded V B H N hidden 0 (torch.zeros [B; (2 * H)%nat]) (torch.zeros_like texts) cs.
Proof.
  intros Hv.
  destruct (forward_calls_ok V B L E H T N p texts summaries Hv)
    as (eo & ef & hidden & cs & _ & Ecs & Lcs & Tcs).
  exists hidden, cs. split; [exact Ecs|].
  split; [rewrite forward_from_calls, Ecs; reflexivity|].
  split; assumption.
Qed.

(** A non-empty batch of embeddable ids needs a non-empty vocabulary. *)
Lemma ids_nonempty (V n : nat) (x : ltensor) :
  length (ldata x) = n -> (0 < n)%nat -> ids_in_range V x = true -> (0 < V)%nat.
Proof.
  intros Hl Hn Hr. unfold ids_in_range in Hr.
  destruct (ldata x) as [|z zs]; [cbn in Hl; lia|].
  cbn [forallb] in Hr. apply andb_prop in Hr. destruct Hr as [Hz _].
  apply andb_prop in Hz. destruct Hz as [H0 H1].
  apply Z.leb_le in H0. apply Z.ltb_lt in H1. lia.
Qed.


(** ** Attention on operands of another batch size *)


(** In every valid invocation every decoder call is handed the state the
    encoder returned: the loop never replaces it. *)
Lemma every_call_gets_encoder_state (V B L E H T N : nat)
    (p : PointerGeneratorNetwork.parameters) (texts summaries : ltensor) :
  valid_invocation V B L H T N texts summaries ->
  exists eo ef hidden cs,
    Encoder.forward
      (PointerGeneratorNetwork.encoder (PointerGeneratorNetwork.init V B L E H p)) texts
    = Ok (eo, ef, hidden)
    /\ PointerGeneratorNetwork.forward_calls
         (PointerGeneratorNetwork.init V B L E H p) texts summaries = Ok cs
    /\ forall t, (t < L)%nat ->
         PointerGeneratorNetwork.hidden_arg (call_at cs t) = hidden.
Proof.
  intros Hv.
  destruct (forward_calls_ok V B L E H T N p texts summaries Hv)
    as (eo & ef & hidden & cs & Ee & Ecs & Lcs & Tcs).
  exists eo, ef, hidden, cs. split; [exact Ee|]. split; [exact Ecs|].
  intros t Ht.
  destruct (threaded_nth V B H N hidden 0 _ _ cs Tcs t) as (_ & Hh & _);
    [lia | exact Hh].
Qed.

(** * The properties of the specification *)

(** C1 (the code departs from the claim).  The claim is that the recurrent
    state handed to the decoder at step [i >= 1] is the state the decoder
    produced at step [i - 1].  In the smallest two-step invocation the loop
    hands the decoder, at step 1, the very state it handed over at step 0
    (the one derived from the encoder), and that state differs from the one
    the decoder returned at step 0: packed the way the decoder packs its
    state, the cell entry is 1 in the former and 1/2 in the latter. *)
Theorem C1_decoder_state_not_threaded :
  exists cs,
    PointerGeneratorNetwork.forward_calls Tiny.model Tiny.texts Tiny.summaries = Ok cs
    /\ length cs = 2%nat
    /\ PointerGeneratorNetwork.hidden_arg (call_at cs 1)
       = PointerGeneratorNetwork.hidden_arg (call_at cs 0)
    /\ packed_state 1 (PointerGeneratorNetwork.hidden_arg (call_at cs 1))
       <> Ok (PointerGeneratorNetwork.ret_hidden (call_at cs 0)).
Proof.
  destruct (forward_calls_ok 1 1 2 1 1 2 1 Tiny.parameters Tiny.texts Tiny.summaries)
    as (eo & ef & hidden & cs & Ee & Ecs & Lcs & Tcs); [valid_by_computation|].
  exists cs. split; [exact Ecs|]. split; [exact Lcs|].
  destruct (threaded_nth _ _ _ _ _ _ _ _ _ Tcs 0) as (_ & H0 & _); [lia|].
  destruct (threaded_nth _ _ _ _ _ _ _ _ _ Tcs 1) as (_ & H1 & _); [lia|].
  split; [rewrite H0, H1; reflexivity|]. rewrite H1.
  unfold PointerGeneratorNetwork.forward_calls in Ecs.
  change (PointerGeneratorNetwork.encoder Tiny.model)
    with (PointerGeneratorNetwork.encoder (PointerGeneratorNetwork.init 1 1 2 1 1 Tiny.parameters))
    in Ecs.
  rewrite Ee in Ecs. cbn [bind] in Ecs.
  apply calls_cons_inv in Ecs. destruct Ecs as (x_in & r & cs' & Er & Ed & Hcs). subst cs.
  apply Decoder_forward_hidden_out in Ed.
  destruct r as [[[[rx ho] rc] ra] rcov].
  unfold call_at. cbn [nth PointerGeneratorNetwork.ret_hidden PointerGeneratorNetwork.returned].
  destruct Ed as (x & y & h & c & Ex & El & Ep).
  eval_forward in Ee. simplify_zeros Ee. injection Ee as <- <- <-.
  eval_forward in Er. injection Er as <-.
  eval_forward in Ex. simplify_zeros Ex. injection Ex as <-.
  eval_forward in El. simplify_zeros El. injection El as <- <- <-.
  eval_forward in Ep. rewrite <- Ep.
  eval_forward. intros E. injection E as _ E. lra.
Qed.




(** C3.  On valid operands [attend] returns attention weights that are, for
    every batch element [b], a probability distribution over the source
    positions: non-negative, summing to one, and equal to the softmax over
    the positions of the scores of that same batch element ([score_at]
    reads the decoder state, encoder features and coverage of element [b]
    only). *)
Theorem C3_attention_is_distribution_per_batch_element
    (H B N : nat) (p : Attention.parameters) (hidden eo ef cov : tensor) :
  (0 < H)%nat -> (0 < B)%nat -> (0 < N)%nat ->
  shape hidden = [B; (2 * H)%nat] -> shape eo = [B; N; (2 * H)%nat] ->
  shape ef = [(N * B)%nat; (2 * H)%nat] -> shape cov = [N; B] ->
  exists context a cov',
    Attention.forward (Attention.init H B p) hidden eo ef cov = Ok (context, a, cov')
    /\ shape a = [N; B]
    /\ forall b, (b < B)%nat ->
         (forall s, (s < N)%nat -> 0 <= get a (s * B + b))
         /\ rsum N (fun s => get a (s * B + b)) = 1
         /\ (forall s, (s < N)%nat ->
               get a (s * B + b)
               = exp (score_at H B p hidden ef cov s b)
                 / rsum N (fun i => exp (score_at H B p hidden ef cov i b))).
Proof.
  intros HH HB HN Sh Seo Sef Scov.
  destruct (Attention_forward_ok H B p hidden eo ef cov N HH HB HN Sh Seo Sef Scov)
    as (context & a & cov' & x & sc & Ea & Ex & Esc & _ & Sa & _ & Ga & _ & Gsc).
  exists context, a, cov'.
  split; [exact Ea|]. split; [exact Sa|].
  intros b Hb. split; [|split].
  - intros s Hs. apply Rlt_le.
    apply (softmax_columns_pos N B sc a _ Ga). apply idx_lt; assumption.
  - apply (softmax_columns_sum N B sc a b Ga HN Hb).
  - intros s Hs. rewrite (Ga (s * B + b)%nat) by (apply idx_lt; assumption).
    rewrite idx_mod by exact Hb. rewrite (Gsc s b Hs Hb).
    f_equal. apply rsum_ext. intros i Hi. rewrite (Gsc i b Hi Hb). reflexivity.
Qed.

Lemma C3_attention_is_distribution_per_batch_element_witness :
  exists context a cov',
    Attention.forward (Attention.init 1 2 Zero.attention)
      (torch.zeros [2%nat; 2%nat]) (torch.zeros [2%nat; 2%nat; 2%nat])
      (torch.zeros [4%nat; 2%nat]) (torch.zeros [2%nat; 2%nat])
    = Ok (context, a, cov')
    /\ get a 0 + get a 2 = 1 /\ get a 1 + get a 3 = 1.
Proof.
  destruct (C3_attention_is_distribution_per_batch_element 1 2 2 Zero.attention
              (torch.zeros [2%nat; 2%nat]) (torch.zeros [2%nat; 2%nat; 2%nat])
              (torch.zeros [4%nat; 2%nat]) (torch.zeros [2%nat; 2%nat]))
    as (context & a & cov' & Ea & _ & Hd);
    [lia | lia | lia | reflexivity | reflexivity | reflexivity | reflexivity |].
  exists context, a, cov'. split; [exact Ea|].
  destruct (Hd 0%nat) as (_ & H0 & _); [lia|].
  destruct (Hd 1%nat) as (_ & H1 & _); [lia|].
  cbn [rsum Nat.mul Nat.add] in H0, H1. split; lra.
Defined.

(** C4.  On valid operands the vocabulary distribution a decoder step
    returns is a probability distribution in every batch row: its entries are
    non-negative and the row sums to one, exactly. *)
Theorem C4_vocabulary_distribution_rows
    (V B E H N : nat) (p : Decoder.parameters) (x_in : ltensor)
    (hidden_in : tensor * tensor) (eo ef ctx cov : tensor) :
  (0 < H)%nat -> (0 < B)%nat -> (0 < N)%nat ->
  decoder_operands V B H N x_in hidden_in eo ef ctx cov ->
  exists x hidden_out context a coverage_next,
    Decoder.forward (Decoder.init V B E H p) x_in hidden_in eo ef ctx cov
    = Ok (x, hidden_out, context, a, coverage_next)
    /\ shape x = [B; V]
    /\ forall b, (b < B)%nat ->
         (forall v, (v < V)%nat -> 0 <= get x (b * V + v))
         /\ rsum V (fun v => get x (b * V + v)) = 1.
Proof.
  intros HH HB HN Hop.
  destruct (Decoder_forward_ok V B E H N p x_in hidden_in eo ef ctx cov HH HB HN Hop)
    as ([[[[x ho] c] a] cv] & Ed & Hr).
  exists x, ho, c, a, cv. split; [exact Ed|].
  pose proof (res_x_shape _ _ _ _ _ _ Hr) as Sx.
  pose proof (res_x_softmax _ _ _ _ _ _ Hr) as Gx. cbn beta iota in Sx, Gx.
  split; [exact Sx|].
  assert (HV : (0 < V)%nat).
  { apply (ids_nonempty V B x_in); [apply Hop | exact HB | apply Hop]. }
  intros b Hb. split.
  - intros v Hv. apply Rlt_le. apply (softmax_rows_pos B V x _ Gx).
    apply idx_lt; assumption.
  - apply (softmax_rows_sum B V x b Gx HV Hb).
Qed.

Lemma C4_vocabulary_distribution_rows_witness :
  exists x hidden_out context a coverage_next,
    Decoder.forward (Decoder.init 3 1 1 1 Zero.decoder) (mkL [1%nat] [2%Z])
      (torch.zeros [1%nat; 1%nat; 1%nat], torch.zeros [1%nat; 1%nat; 1%nat])
      (torch.zeros [1%nat; 1%nat; 2%nat]) (torch.zeros [1%nat; 2%nat])
      (torch.zeros [1%nat; 2%nat]) (torch.zeros [1%nat; 1%nat])
    = Ok (x, hidden_out, context, a, coverage_next)
    /\ get x 0 + get x 1 + get x 2 = 1.
Proof.
  destruct (C4_vocabulary_distribution_rows 3 1 1 1 1 Zero.decoder (mkL [1%nat] [2%Z])
              (torch.zeros [1%nat; 1%nat; 1%nat], torch.zeros [1%nat; 1%nat; 1%nat])
              (torch.zeros [1%nat; 1%nat; 2%nat]) (torch.zeros [1%nat; 2%nat])
              (torch.zeros [1%nat; 2%nat]) (torch.zeros [1%nat; 1%nat]))
    as (x & ho & c & a & cv & Ed & _ & Hd);
    [lia | lia | lia | constructor; reflexivity |].
  exists x, ho, c, a, cv. split; [exact Ed|].
  destruct (Hd 0%nat) as (_ & H0); [lia|].
  cbn [rsum Nat.mul Nat.add] in H0. lra.
Defined.















(** * Further properties of the code *)

(** ** More on finite sums *)




Lemma rsum_le (n : nat) (f g : nat -> R) :
  (forall i, (i < n)%nat -> f i <= g i) -> rsum n f <= rsum n g.
Proof.
  induction n as [|n IH]; intros H; cbn [rsum].
  - lra.
  - assert (rsum n f <= rsum n g) by (apply IH; intros i Hi; apply H; lia).
    assert (f n <= g n) by (apply H; lia). lra.
Qed.

Lemma rsum_scale (n : nat) (f : nat -> R) (c : R) :
  rsum n (fun i => f i * c) = rsum n f * c.
Proof.
  induction n as [|n IH]; cbn [rsum].
  - ring.
  - rewrite IH. ring.
Qed.


(** A weighted mean with non-negative weights that sum to one lies between
    any bounds of the values. *)
Lemma convex_combination_bounds (n : nat) (w x : nat -> R) (lo hi : R) :
  (forall i, (i < n)%nat -> 0 <= w i) -> rsum n w = 1 ->
  (forall i, (i < n)%nat -> lo <= x i <= hi) ->
  lo <= rsum n (fun i => w i * x i) <= hi.
Proof.
  intros Hw Hsum Hx. split.
  - replace lo with (rsum n w * lo) by (rewrite Hsum; ring).
    rewrite <- rsum_scale. apply rsum_le. intros i Hi.
    apply Rmult_le_compat_l; [apply Hw; exact Hi | apply Hx; exact Hi].
  - replace hi with (rsum n w * hi) by (rewrite Hsum; ring).
    rewrite <- rsum_scale. apply rsum_le. intros i Hi.
    apply Rmult_le_compat_l; [apply Hw; exact Hi | apply Hx; exact Hi].
Qed.


(** ** More on the tensor operations *)

Lemma bmm_get (a b y : tensor) (n p m q : nat) :
  shape a = [n; p; m] -> shape b = [n; m; q] -> torch.bmm a b = Ok y ->
  forall i u v, (i < n)%nat -> (u < p)%nat -> (v < q)%nat ->
    get y ((i * p + u) * q + v)
    = rsum m (fun l => get a ((i * p + u) * m + l) * get b ((i * m + l) * q + v)).
Proof.
  intros Sa Sb E i u v Hi Hu Hv. unfold torch.bmm in E.
  rewrite Sa, Sb, !Nat.eqb_refl in E. cbn [andb] in E. injection E as <-.
  rewrite get_mkT by (apply idx_lt; [apply idx_lt|]; assumption).
  rewrite (idx_mod (i * p + u) v q Hv), (idx_div (i * p + u) v q Hv).
  rewrite (idx_mod i u p Hu).
  replace (((i * p + u) * q + v) / (p * q))%nat with i; [reflexivity|].
  symmetry. replace ((i * p + u) * q + v)%nat with (i * (p * q) + (u * q + v))%nat by lia.
  apply idx_div. apply idx_lt; assumption.
Qed.

Lemma permute102_get (t y : tensor) (a b c : nat) :
  shape t = [a; b; c] -> torch.permute102 t = Ok y ->
  forall i j l, (i < a)%nat -> (j < b)%nat -> (l < c)%nat ->
    get y ((j * a + i) * c + l) = get t ((i * b + j) * c + l).
Proof.
  intros Hs E i j l Hi Hj Hl. unfold torch.permute102 in E.
  rewrite Hs in E. injection E as <-.
  rewrite get_mkT by (apply idx_lt; [apply idx_lt|]; assumption).
  rewrite (idx_mod (j * a + i) l c Hl), (idx_div (j * a + i) l c Hl).
  rewrite (idx_mod j i a Hi).
  replace (((j * a + i) * c + l) / (a * c))%nat with j; [reflexivity|].
  symmetry. replace ((j * a + i) * c + l)%nat with (j * (a * c) + (i * c + l))%nat by lia.
  apply idx_div. apply idx_lt; assumption.
Qed.

Lemma get_relu (x : tensor) (k : nat) :
  get (mkT (shape x) (map (Rmax 0) (data x))) k = Rmax 0 (get x k).
Proof.
  unfold get. cbn [data].
  rewrite <- (map_nth (Rmax 0) (data x) 0 k).
  replace (Rmax 0 0) with 0; [reflexivity|].
  symmetry. apply Rmax_left. lra.
Qed.

Lemma cat1_rows_mismatch (a b : tensor) (r1 c1 r2 c2 : nat) :
  shape a = [r1; c1] -> shape b = [r2; c2] -> r1 <> r2 ->
  torch.cat1 a b = Err ShapeError.
Proof.
  intros Sa Sb Hne. unfold torch.cat1. rewrite Sa, Sb.
  destruct (Nat.eqb_spec r1 r2) as [E|_]; [contradiction | reflexivity].
Qed.

(** ** The context vector of [attend] *)

(** The context of batch element [b] is the sum, over the source positions,
    of the encoder output of [b] at that position weighted by the attention
    of [b] on it. *)
Lemma Attention_forward_context (H B : nat) (p : Attention.parameters)
    (hidden eo ef cov : tensor) (S : nat) :
  (0 < H)%nat -> (0 < B)%nat -> (0 < S)%nat ->
  shape hidden = [B; (2 * H)%nat] -> shape eo = [B; S; (2 * H)%nat] ->
  shape ef = [(S * B)%nat; (2 * H)%nat] -> shape cov = [S; B] ->
  exists context a cov',
    Attention.forward (Attention.init H B p) hidden eo ef cov = Ok (context, a, cov')
    /\ forall b j, (b < B)%nat -> (j < 2 * H)%nat ->
         get context (b * (2 * H) + j)
         = rsum S (fun s => get a (s * B + b) * get eo ((b * S + s) * (2 * H) + j)).
Proof.
  intros HH HB HS Sh Seo Sef Scov.
  rewrite Attention_forward_unfold.
  destruct (summed_features_ok H B p hidden eo ef cov S B HH Sh Seo Sef Scov)
    as (x & Ex & Sx & _).
  rewrite Ex. cbn [bind]. unfold torch.shape3. rewrite Seo. cbn [bind].
  destruct (attention_seq_ok H B p x S HB Sx) as (sc & w & _ & Ew & _ & Sw & _).
  rewrite Ew. cbn [bind].
  destruct (bmm_ok w eo B 1 S (2 * H) Sw Seo) as (c0 & Ec0 & Sc0).
  pose proof (bmm_get w eo c0 B 1 S (2 * H) Sw Seo Ec0) as Gc0.
  rewrite Ec0. cbn [bind]. cbn [Attention.hidden_size Attention.init].
  rewrite (view2_ok (2 * H) B c0) by (rewrite ?Sc0, ?numel3; lia). cbn [bind].
  rewrite (view2_ok S B w) by (rewrite ?Sw, ?numel3; lia). cbn [bind].
  destruct (permute10_ok (mkT [B; S] (data w)) B S) as (a & Ea & Sa & Ga);
    [reflexivity|].
  rewrite Ea. cbn [bind].
  destruct (add_ok cov a S B Scov Sa) as (cov' & Ecov & _).
  rewrite Ecov. cbn [bind].
  exists (mkT [B; (2 * H)%nat] (data c0)), a, cov'. split; [reflexivity|].
  intros b j Hb Hj.
  change (get (mkT [B; (2 * H)%nat] (data c0)) (b * (2 * H) + j))
    with (get c0 (b * (2 * H) + j)).
  specialize (Gc0 b 0%nat j Hb ltac:(lia) Hj).
  replace (b * 1 + 0)%nat with b in Gc0 by lia. rewrite Gc0.
  apply rsum_ext. intros s Hs. rewrite (Ga b s Hb Hs). reflexivity.
Qed.

(** ** The layout of what the encoder returns *)

Lemma reduce_get (i o : nat) (p : nn.Linear.parameters) (cols B : nat) (x y : tensor) :
  (0 < o)%nat -> cols = (o * 2)%nat -> i = (o * 2)%nat -> shape x = [B; 2%nat; o] ->
  (x <- utils.View cols x ;;
   x <- nn.Linear.forward (nn.Linear.init i o p) x ;;
   x <- nn.ReLU.forward x ;;
   utils.Unsqueeze0 x) = Ok y ->
  forall b j, (b < B)%nat -> (j < o)%nat ->
    get y (b * o + j)
    = Rmax 0 (rsum (o * 2) (fun k => nn.Linear.p_weight p j k * get x (b * (o * 2) + k))
              + nn.Linear.p_bias p j).
Proof.
  intros Ho Hcols Hi Hs E b j Hb Hj. subst cols i. unfold utils.View in E.
  rewrite (view2_ok (o * 2) B x) in E by (rewrite ?Hs, ?numel3; lia). cbn [bind] in E.
  destruct (Linear_init_ok (o * 2) o p (mkT [B; (o * 2)%nat] (data x)) B (o * 2))
    as (l & El & Sl); [reflexivity | reflexivity |].
  pose proof (Linear_get (nn.Linear.init (o * 2) o p) (mkT [B; (o * 2)%nat] (data x)) l
                B (o * 2) eq_refl eq_refl El b j Hb Hj) as Gl.
  cbn [nn.Linear.init nn.Linear.out_features nn.Linear.weight nn.Linear.bias] in Gl.
  rewrite El in E. cbn [bind] in E. unfold nn.ReLU.forward in E. cbn [bind] in E.
  unfold utils.Unsqueeze0, torch.unsqueeze0 in E. cbn [shape data] in E.
  injection E as <-.
  change (get (mkT (1%nat :: shape l) (map (Rmax 0) (data l))) (b * o + j))
    with (get (mkT (shape l) (map (Rmax 0) (data l))) (b * o + j)).
  rewrite get_relu, Gl. reflexivity.
Qed.

Lemma Encoder_forward_layout (V E H : nat) (p : Encoder.parameters) (texts : ltensor)
    (S B : nat) :
  (0 < H)%nat -> (0 < S)%nat ->
  lshape texts = [S; B] -> ids_in_range V texts = true ->
  exists emb y hn cn x x_out hidden cell,
    nn.Embedding.forward (Encoder.embedding (Encoder.init V E H p)) texts = Ok emb
    /\ nn.LSTM.forward (Encoder.lstm (Encoder.init V E H p)) emb None = Ok (y, (hn, cn))
    /\ Encoder.forward (Encoder.init V E H p) texts = Ok (x, x_out, (hidden, cell))
    /\ (forall s b i, (s < S)%nat -> (b < B)%nat -> (i < 2 * H)%nat ->
          get x ((b * S + s) * (2 * H) + i) = get y ((s * B + b) * (2 * H) + i))
    /\ (forall s b o, (s < S)%nat -> (b < B)%nat -> (o < 2 * H)%nat ->
          get x_out ((s * B + b) * (2 * H) + o)
          = rsum (2 * H) (fun i => nn.Linear.p_weight (Encoder.linear_p p) o i
                                   * get x ((b * S + s) * (2 * H) + i))
            + nn.Linear.p_bias (Encoder.linear_p p) o)
    /\ (forall b o, (b < B)%nat -> (o < H)%nat ->
          get hidden (b * H + o)
          = Rmax 0 (rsum (2 * H) (fun k => nn.Linear.p_weight (Encoder.reduce_hidden_p p) o k
                                           * both_directions H B hn b k)
                    + nn.Linear.p_bias (Encoder.reduce_hidden_p p) o))
    /\ (forall b o, (b < B)%nat -> (o < H)%nat ->
          get cell (b * H + o)
          = Rmax 0 (rsum (2 * H) (fun k => nn.Linear.p_weight (Encoder.reduce_cell_p p) o k
                                           * both_directions H B cn b k)
                    + nn.Linear.p_bias (Encoder.reduce_cell_p p) o)).
Proof.
  intros HH HS Hs Hids. unfold Encoder.forward.
  destruct (Embedding_ok (Encoder.embedding (Encoder.init V E H p)) texts)
    as (x0 & E0 & S0); [exact Hids|].
  rewrite E0. cbn [bind]. rewrite Hs in S0. cbn in S0.
  destruct (LSTM_ok_bidirectional (Encoder.lstm (Encoder.init V E H p)) x0 S B E)
    as (y & h & c & El & Sy & Sh & Sc); [reflexivity | exact S0 | reflexivity | exact HS |].
  rewrite El. cbn [bind]. cbn [Encoder.lstm Encoder.init nn.LSTM.hidden_size] in Sy, Sh, Sc.
  unfold Encoder.linear, utils.View.
  rewrite (view2_ok (2 * Encoder.hidden_size (Encoder.init V E H p)) (S * B) y)
    by (cbn [Encoder.hidden_size Encoder.init]; rewrite ?Sy, ?numel3; lia).
  cbn [bind]. cbn [Encoder.hidden_size Encoder.init].
  destruct (Linear_init_ok (H * 2) (H * 2) (Encoder.linear_p p)
              (mkT [(S * B)%nat; (2 * H)%nat] (data y))
              (S * B) (2 * H)) as (xo & Exo & Sxo); [reflexivity | lia |].
  assert (Hin : (2 * H)%nat
                = nn.Linear.in_features (nn.Linear.init (H * 2) (H * 2) (Encoder.linear_p p)))
    by (cbn [nn.Linear.init nn.Linear.in_features]; lia).
  pose proof (Linear_get _ (mkT [(S * B)%nat; (2 * H)%nat] (data y)) xo (S * B) (2 * H)
                eq_refl Hin Exo) as Gxo.
  cbn [nn.Linear.init nn.Linear.out_features nn.Linear.weight nn.Linear.bias] in Gxo.
  cbn [Encoder.linear_fc Encoder.init]. rewrite Exo. cbn [bind].
  destruct (permute102_ok y S B (2 * H) Sy) as (xp & Exp & Sxp).
  pose proof (permute102_get y xp S B (2 * H) Sy Exp) as Gxp.
  rewrite Exp. cbn [bind].
  destruct (permute102_ok h 2 B H Sh) as (hp & Ehp & Shp).
  pose proof (permute102_get h hp 2 B H Sh Ehp) as Ghp.
  rewrite Ehp. cbn [bind].
  destruct (reduce_ok (H * 2) H (Encoder.reduce_hidden_p p) (H * 2) B hp)
    as (hr & Ehr & Shr); [exact HH | reflexivity | reflexivity | exact Shp |].
  pose proof (reduce_get (H * 2) H (Encoder.reduce_hidden_p p) (H * 2) B hp hr
                HH eq_refl eq_refl Shp Ehr) as Ghr.
  unfold Encoder.reduce_hidden. cbn [Encoder.reduce_hidden_fc Encoder.hidden_size Encoder.init].
  rewrite Ehr. cbn [bind].
  destruct (permute102_ok c 2 B H Sc) as (cp & Ecp & Scp).
  pose proof (permute102_get c cp 2 B H Sc Ecp) as Gcp.
  rewrite Ecp. cbn [bind].
  destruct (reduce_ok (H * 2) H (Encoder.reduce_cell_p p) (H * 2) B cp)
    as (cr & Ecr & Scr); [exact HH | reflexivity | reflexivity | exact Scp |].
  pose proof (reduce_get (H * 2) H (Encoder.reduce_cell_p p) (H * 2) B cp cr
                HH eq_refl eq_refl Scp Ecr) as Gcr.
  unfold Encoder.reduce_cell. cbn [Encoder.reduce_cell_fc Encoder.hidden_size Encoder.init].
  rewrite Ecr. cbn [bind].
  assert (Hdir : forall (t tp : tensor),
            (forall i j l, (i < 2)%nat -> (j < B)%nat -> (l < H)%nat ->
               get tp ((j * 2 + i) * H + l) = get t ((i * B + j) * H + l)) ->
            forall b k, (b < B)%nat -> (k < H * 2)%nat ->
              get tp (b * (H * 2) + k) = both_directions H B t b k).
  { intros t tp G b k Hb Hk. unfold both_directions.
    assert (Hd : (k / H < 2)%nat) by (apply Nat.Div0.div_lt_upper_bound; lia).
    assert (Hl : (k mod H < H)%nat) by (apply Nat.mod_upper_bound; lia).
    rewrite <- (G (k / H)%nat b (k mod H)%nat Hd Hb Hl).
    f_equal. pose proof (idx_split k H HH). nia. }
  exists x0, y, h, c, xp, xo, hr, cr.
  split; [reflexivity|]. split; [exact El|]. split; [reflexivity|].
  split; [|split; [|split]].
  - intros s b i Hs' Hb Hi. apply Gxp; assumption.
  - intros s b o Hs' Hb Ho.
    replace ((s * B + b) * (2 * H) + o)%nat with ((s * B + b) * (H * 2) + o)%nat by lia.
    rewrite (Gxo (s * B + b)%nat o) by (try apply idx_lt; try assumption; lia).
    f_equal. apply rsum_ext. intros i Hi. f_equal.
    change (get (mkT [(S * B)%nat; (2 * H)%nat] (data y)) ((s * B + b) * (2 * H) + i))
      with (get y ((s * B + b) * (2 * H) + i)).
    symmetry. apply Gxp; assumption.
  - intros b o Hb Ho. rewrite (Ghr b o Hb Ho).
    replace (H * 2)%nat with (2 * H)%nat at 1 by lia.
    f_equal. f_equal. apply rsum_ext. intros k Hk. f_equal.
    apply (Hdir h hp Ghp b k Hb). lia.
  - intros b o Hb Ho. rewrite (Gcr b o Hb Ho).
    replace (H * 2)%nat with (2 * H)%nat at 1 by lia.
    f_equal. f_equal. apply rsum_ext. intros k Hk. f_equal.
    apply (Hdir c cp Gcp b k Hb). lia.
Qed.

(** ** Invocations that raise *)



Section LoopFailures.

Variables V B L E H : nat.
Variable p : PointerGeneratorNetwork.parameters.
Variable summaries : ltensor.
Variable hidden : tensor * tensor.
Variables eo ef : tensor.
Variables T N : nat.

Let m := PointerGeneratorNetwork.init V B L E H p.

Hypothesis HH : (0 < H)%nat.
Hypothesis HB : (0 < B)%nat.
Hypothesis HN : (0 < N)%nat.
Hypothesis Hshape : lshape summaries = [T; B].
Hypothesis Hh : shape (fst hidden) = [1%nat; B; H].
Hypothesis Hc : shape (snd hidden) = [1%nat; B; H].
Hypothesis Heo : shape eo = [B; N; (2 * H)%nat].
Hypothesis Hef : shape ef = [(N * B)%nat; (2 * H)%nat].



End LoopFailures.

(** ** Which target rows an invocation reads *)

Lemma calls_agree (m : PointerGeneratorNetwork.t) (s1 s2 : ltensor)
    (hidden : tensor * tensor) (eo ef : tensor) (range : list nat) :
  (forall i, In i range -> torch.row s1 i = torch.row s2 i) ->
  forall ctx cov,
    PointerGeneratorNetwork.calls m s1 hidden eo ef range ctx cov
    = PointerGeneratorNetwork.calls m s2 hidden eo ef range ctx cov.
Proof.
  induction range as [|i rest IH]; intros Hrows ctx cov; [reflexivity|].
  cbn [PointerGeneratorNetwork.calls].
  rewrite (Hrows i) by (left; reflexivity).
  destruct (torch.row s2 i) as [x_in|e]; cbn [bind]; [|reflexivity].
  destruct (Decoder.forward (PointerGeneratorNetwork.decoder m) x_in hidden eo ef ctx cov)
    as [r|e]; cbn [bind]; [|reflexivity].
  rewrite IH by (intros j Hj; apply Hrows; right; exact Hj). reflexivity.
Qed.

Lemma calls_prefix_agree (m : PointerGeneratorNetwork.t) (s1 s2 : ltensor)
    (hidden : tensor * tensor) (eo ef : tensor) (range : list nat) :
  forall n ctx cov cs1 cs2,
    (forall i, In i (firstn n range) -> torch.row s1 i = torch.row s2 i) ->
    PointerGeneratorNetwork.calls m s1 hidden eo ef range ctx cov = Ok cs1 ->
    PointerGeneratorNetwork.calls m s2 hidden eo ef range ctx cov = Ok cs2 ->
    firstn n cs1 = firstn n cs2.
Proof.
  induction range as [|i rest IH]; intros n ctx cov cs1 cs2 Hrows E1 E2.
  - cbn in E1, E2. injection E1 as <-. injection E2 as <-. reflexivity.
  - destruct n as [|n]; [reflexivity|].
    cbn [PointerGeneratorNetwork.calls] in E1, E2.
    rewrite (Hrows i) in E1 by (left; reflexivity).
    apply bind_Ok in E1. destruct E1 as (x1 & Er1 & E1).
    apply bind_Ok in E2. destruct E2 as (x2 & Er2 & E2).
    rewrite Er1 in Er2. injection Er2 as <-.
    apply bind_Ok in E1. destruct E1 as (r1 & Ed1 & E1).
    apply bind_Ok in E2. destruct E2 as (r2 & Ed2 & E2).
    rewrite Ed1 in Ed2. injection Ed2 as <-.
    apply bind_Ok in E1. destruct E1 as (cs1' & Ec1 & E1). injection E1 as <-.
    apply bind_Ok in E2. destruct E2 as (cs2' & Ec2 & E2). injection E2 as <-.
    cbn [firstn]. f_equal.
    eapply IH; [|exact Ec1 | exact Ec2].
    intros j Hj. apply Hrows. right. exact Hj.
Qed.

(** ** Python lists *)

Lemma py_position_valid (n : nat) (i : Z) :
  controller.valid_index n i ->
  exists k, py_position n i = Some k /\ (k < n)%nat
            /\ ((0 <= i)%Z -> k = Z.to_nat i)
            /\ ((i < 0)%Z -> k = Z.to_nat (Z.of_nat n + i)).
Proof.
  unfold controller.valid_index, py_position. intros Hv.
  destruct (Z.leb_spec 0 i) as [H0|H0].
  - destruct (Z.ltb_spec i (Z.of_nat n)) as [H1|H1]; [|lia]. cbn [andb].
    exists (Z.to_nat i). repeat split; try reflexivity; lia.
  - cbn [andb].
    destruct (Z.leb_spec (- Z.of_nat n) i) as [H1|H1]; [|lia].
    destruct (Z.ltb_spec i 0) as [H2|H2]; [|lia]. cbn [andb].
    exists (Z.to_nat (Z.of_nat n + i)). repeat split; try reflexivity; lia.
Qed.

Lemma py_position_invalid (n : nat) (i : Z) :
  ~ controller.valid_index n i -> py_position n i = None.
Proof.
  unfold controller.valid_index, py_position. intros Hv.
  destruct (Z.leb_spec 0 i) as [H0|H0];
    destruct (Z.ltb_spec i (Z.of_nat n)) as [H1|H1]; cbn [andb]; try lia;
    destruct (Z.leb_spec (- Z.of_nat n) i) as [H2|H2];
    destruct (Z.ltb_spec i 0) as [H3|H3]; cbn [andb]; try lia; reflexivity.
Qed.

Lemma length_update {A : Type} (l : list A) (k : nat) (v : A) :
  length (update l k v) = length l.
Proof.
  revert k. induction l as [|x l IH]; intros k; [reflexivity|].
  destruct k; cbn [update length]; [reflexivity | rewrite IH; reflexivity].
Qed.

Lemma nth_update {A : Type} (l : list A) (k j : nat) (v d : A) :
  (k < length l)%nat ->
  nth j (update l k v) d = if (j =? k)%nat then v else nth j l d.
Proof.
  revert k j. induction l as [|x l IH]; intros k j Hk; [cbn in Hk; lia|].
  destruct k as [|k]; destruct j as [|j]; cbn [update nth Nat.eqb]; try reflexivity.
  apply IH. cbn in Hk. lia.
Qed.

Lemma py_getitem_valid {A : Type} (l : list A) (i : Z) (k : nat) (d : A) :
  py_position (length l) i = Some k -> (k < length l)%nat ->
  py_getitem l i = Ok (nth k l d).
Proof.
  intros Hp Hk. unfold py_getitem. rewrite Hp.
  rewrite (nth_error_nth' l d Hk). reflexivity.
Qed.

(** ** Strings *)

Local Infix "+++" := String.append (right associativity, at level 60).

Lemma string_length_append (a b : String.string) :
  String.length (a +++ b) = (String.length a + String.length b)%nat.
Proof.
  induction a as [|c a IH]; cbn [String.append String.length]; [reflexivity|].
  rewrite IH. reflexivity.
Qed.

Lemma string_append_assoc (a b c : String.string) :
  (a +++ b) +++ c = a +++ b +++ c.
Proof.
  induction a as [|x a IH]; cbn [String.append]; [reflexivity|].
  rewrite IH. reflexivity.
Qed.

Lemma string_append_empty_r (a : String.string) : a +++ String.EmptyString = a.
Proof.
  induction a as [|x a IH]; cbn [String.append]; [reflexivity|].
  rewrite IH. reflexivity.
Qed.

Lemma total_length_update (l : list String.string) (k : nat) (v : String.string) :
  (k < length l)%nat ->
  (controller.total_length (update l k v) + String.length (nth k l String.EmptyString)
   = controller.total_length l + String.length v)%nat.
Proof.
  unfold controller.total_length, list_sum. revert k.
  induction l as [|x l IH]; intros k Hk; [cbn in Hk; lia|].
  destruct k as [|k]; cbn [update map fold_right nth].
  - lia.
  - cbn in Hk. specialize (IH k ltac:(lia)). lia.
Qed.

(** [' '.join(l)] has the characters of the tokens and one space between
    neighbours. *)
Lemma join_length (l : list String.string) :
  String.length (String.concat controller.space l)
  = (controller.total_length l + (length l - 1))%nat.
Proof.
  unfold controller.total_length, list_sum.
  induction l as [|x l IH]; [reflexivity|].
  destruct l as [|y l].
  - cbn. lia.
  - change (String.concat controller.space (x :: y :: l))
      with (x +++ controller.space
              +++ String.concat controller.space (y :: l)).
    rewrite !string_length_append, IH.
    cbn [String.length controller.space map fold_right length]. lia.
Qed.

(** ** The highlighting loop of [show_article] *)

Section Highlighting.

Variable Extra : Type.

Let mark := controller.mark Extra.
Let mark_all := controller.mark_all Extra.

Lemma mark_fits (tokens : list String.string) (tag : String.string) (p len : Z)
    (x : Extra) :
  controller.entity_fits (length tokens) (tag, p, len, x) ->
  exists k1 k2,
    py_position (length tokens) p = Some k1
    /\ py_position (length tokens) (p + len - 1) = Some k2
    /\ (k1 < length tokens)%nat /\ (k2 < length tokens)%nat
    /\ mark tokens (tag, p, len, x) = Ok (controller.marked tokens tag k1 k2).
Proof.
  intros [Hv1 Hv2].
  destruct (py_position_valid _ _ Hv1) as (k1 & P1 & L1 & _).
  destruct (py_position_valid _ _ Hv2) as (k2 & P2 & L2 & _).
  exists k1, k2. repeat (split; [assumption|]).
  unfold mark, controller.mark.
  rewrite (py_getitem_valid tokens p k1 String.EmptyString P1 L1). cbn [bind].
  unfold py_setitem at 1. rewrite P1. cbn [bind].
  rewrite (py_getitem_valid _ (p + len - 1) k2 String.EmptyString)
    by (rewrite ?length_update; assumption).
  cbn [bind]. unfold py_setitem. rewrite length_update, P2. reflexivity.
Qed.

Lemma mark_does_not_fit (tokens : list String.string) (e : controller.entity Extra) :
  ~ controller.entity_fits (length tokens) e -> mark tokens e = Err IndexError.
Proof.
  destruct e as [[[tag p] len] x]. unfold controller.entity_fits. intros Hn.
  unfold mark, controller.mark.
  destruct (py_position (length tokens) p) as [k1|] eqn:P1.
  - unfold py_getitem at 1. rewrite P1.
    destruct (nth_error tokens k1) as [t|]; cbn [bind]; [|reflexivity].
    unfold py_setitem at 1. rewrite P1. cbn [bind].
    assert (Hv2 : ~ controller.valid_index (length tokens) (p + len - 1)).
    { intros Hv2. apply Hn. split; [|exact Hv2].
      unfold controller.valid_index. unfold py_position in P1.
      destruct (Z.leb_spec 0 p); destruct (Z.ltb_spec p (Z.of_nat (length tokens)));
        cbn [andb] in P1; try lia;
        destruct (Z.leb_spec (- Z.of_nat (length tokens)) p);
        destruct (Z.ltb_spec p 0); cbn [andb] in P1; try lia; discriminate P1. }
    unfold py_getitem. rewrite length_update, (py_position_invalid _ _ Hv2). reflexivity.
  - unfold py_getitem at 1. rewrite P1. reflexivity.
Qed.

Lemma length_marked (tokens : list String.string) (tag : String.string) (k1 k2 : nat) :
  length (controller.marked tokens tag k1 k2) = length tokens.
Proof. unfold controller.marked. rewrite !length_update. reflexivity. Qed.

Lemma nth_marked (tokens : list String.string) (tag : String.string) (k1 k2 i : nat) :
  (k1 < length tokens)%nat -> (k2 < length tokens)%nat ->
  nth i (controller.marked tokens tag k1 k2) String.EmptyString
  = (if (i =? k1)%nat then controller.open_tag else String.EmptyString)
    +++ nth i tokens String.EmptyString
    +++ (if (i =? k2)%nat then controller.close_tag tag else String.EmptyString).
Proof.
  intros L1 L2. unfold controller.marked.
  rewrite nth_update by (rewrite length_update; exact L2).
  rewrite !nth_update by exact L1.
  destruct (Nat.eqb_spec i k2) as [->|H2].
  - destruct (Nat.eqb_spec k2 k1) as [->|H1].
    + rewrite string_append_assoc. reflexivity.
    + reflexivity.
  - destruct (Nat.eqb_spec i k1) as [->|H1].
    + rewrite string_append_empty_r. reflexivity.
    + rewrite string_append_empty_r. reflexivity.
Qed.

Lemma total_length_marked (tokens : list String.string) (tag : String.string)
    (k1 k2 : nat) :
  (k1 < length tokens)%nat -> (k2 < length tokens)%nat ->
  controller.total_length (controller.marked tokens tag k1 k2)
  = (controller.total_length tokens + (20 + String.length tag))%nat.
Proof.
  intros L1 L2. unfold controller.marked.
  set (t1 := update tokens k1 (controller.open_tag +++ nth k1 tokens String.EmptyString)).
  assert (L2' : (k2 < length t1)%nat) by (unfold t1; rewrite length_update; exact L2).
  pose proof (total_length_update t1 k2
                (nth k2 t1 String.EmptyString +++ controller.close_tag tag) L2') as E2.
  pose proof (total_length_update tokens k1
                (controller.open_tag +++ nth k1 tokens String.EmptyString) L1) as E1.
  fold t1 in E1.
  assert (Hclose : String.length (controller.close_tag tag)
                   = (12 + String.length tag)%nat).
  { unfold controller.close_tag. rewrite !string_length_append.
    cbn [String.length]. lia. }
  assert (Hopen : String.length controller.open_tag = 8%nat) by reflexivity.
  rewrite string_length_append in E1, E2. lia.
Qed.

End Highlighting.

Lemma wrapped_refl (t : String.string) : controller.wrapped t t.
Proof.
  exists String.EmptyString, String.EmptyString.
  cbn [String.append]. rewrite string_append_empty_r. reflexivity.
Qed.

Lemma wrapped_trans (a b c : String.string) :
  controller.wrapped a b -> controller.wrapped b c -> controller.wrapped a c.
Proof.
  intros (p1 & s1 & ->) (p2 & s2 & ->).
  exists (p2 +++ p1), (s1 +++ s2).
  rewrite !string_append_assoc. reflexivity.
Qed.

Lemma Forall2_of_nth {A : Type} (P : A -> A -> Prop) (d : A) (l : list A) :
  forall l', length l' = length l ->
    (forall i, (i < length l)%nat -> P (nth i l d) (nth i l' d)) ->
    Forall2 P l l'.
Proof.
  induction l as [|x l IH]; intros l' Hlen Hnth.
  - destruct l'; [constructor | discriminate Hlen].
  - destruct l' as [|y l']; [discriminate Hlen|].
    constructor.
    + apply (Hnth 0%nat). cbn. lia.
    + apply IH; [cbn in Hlen; lia|].
      intros i Hi. apply (Hnth (S i)). cbn. lia.
Qed.

Lemma Forall2_compose {A : Type} (P : A -> A -> Prop) :
  (forall a b c, P a b -> P b c -> P a c) ->
  forall l1 l2 l3, Forall2 P l1 l2 -> Forall2 P l2 l3 -> Forall2 P l1 l3.
Proof.
  intros Htrans l1 l2 l3 H12. revert l3.
  induction H12 as [|a b l1 l2 Hab _ IH]; intros l3 H23.
  - inversion H23. constructor.
  - inversion H23 as [|b' c l2' l3' Hbc Hrest]; subst.
    constructor; [exact (Htrans _ _ _ Hab Hbc) | apply IH; exact Hrest].
Qed.

Lemma valid_index_dec (n : nat) (i : Z) :
  {controller.valid_index n i} + {~ controller.valid_index n i}.
Proof.
  unfold controller.valid_index.
  destruct (Z_le_dec (- Z.of_nat n) i); destruct (Z_lt_dec i (Z.of_nat n));
    [left | right | right | right]; lia.
Qed.

Lemma entity_fits_dec (Extra : Type) (n : nat) (e : controller.entity Extra) :
  {controller.entity_fits n e} + {~ controller.entity_fits n e}.
Proof.
  destruct e as [[[tag p] len] x]. unfold controller.entity_fits.
  destruct (valid_index_dec n p); destruct (valid_index_dec n (p + len - 1));
    [left | right | right | right]; tauto.
Qed.

Lemma wrapped_marked (tokens : list String.string) (tag : String.string) (k1 k2 : nat) :
  (k1 < length tokens)%nat -> (k2 < length tokens)%nat ->
  Forall2 controller.wrapped tokens (controller.marked tokens tag k1 k2).
Proof.
  intros L1 L2. apply (Forall2_of_nth controller.wrapped String.EmptyString).
  - apply length_marked.
  - intros i Hi. rewrite (nth_marked tokens tag k1 k2 i L1 L2).
    eexists _, _. reflexivity.
Qed.

(** What the loop over the entities returns, and when. *)
Lemma mark_all_Ok (Extra : Type) (es : list (controller.entity Extra)) :
  forall tokens tokens',
    controller.mark_all Extra tokens es = Ok tokens' ->
    length tokens' = length tokens
    /\ Forall2 controller.wrapped tokens tokens'
    /\ controller.total_length tokens'
       = (controller.total_length tokens + controller.markup_length es)%nat
    /\ Forall (controller.entity_fits (length tokens)) es.
Proof.
  induction es as [|e es IH]; intros tokens tokens' E.
  - cbn in E. injection E as <-.
    split; [reflexivity|]. split.
    + apply (Forall2_of_nth controller.wrapped String.EmptyString); [reflexivity|].
      intros i _. apply wrapped_refl.
    + split; [cbn; lia | constructor].
  - cbn [controller.mark_all] in E.
    apply bind_Ok in E. destruct E as (t1 & E1 & E).
    destruct (entity_fits_dec Extra (length tokens) e) as [Hf|Hn];
      [|rewrite (mark_does_not_fit Extra tokens e Hn) in E1; discriminate E1].
    destruct e as [[[tag p] len] x].
    destruct (mark_fits Extra tokens tag p len x Hf) as (k1 & k2 & _ & _ & L1 & L2 & Em).
    rewrite Em in E1. injection E1 as <-.
    destruct (IH _ _ E) as (Hlen & Hw & Htot & Hfits).
    rewrite length_marked in Hlen, Hfits.
    split; [exact Hlen|]. split; [|split].
    + apply (Forall2_compose controller.wrapped wrapped_trans _ _ _
               (wrapped_marked tokens tag k1 k2 L1 L2) Hw).
    + rewrite Htot, (total_length_marked tokens tag k1 k2 L1 L2).
      unfold controller.markup_length. cbn [map list_sum fold_right]. unfold list_sum. lia.
    + constructor; assumption.
Qed.

Lemma mark_all_fits (Extra : Type) (es : list (controller.entity Extra)) :
  forall tokens,
    Forall (controller.entity_fits (length tokens)) es ->
    exists tokens', controller.mark_all Extra tokens es = Ok tokens'.
Proof.
  induction es as [|e es IH]; intros tokens Hf.
  - exists tokens. reflexivity.
  - inversion Hf as [|e' es' He Hes]; subst.
    destruct e as [[[tag p] len] x].
    destruct (mark_fits Extra tokens tag p len x He) as (k1 & k2 & _ & _ & L1 & L2 & Em).
    cbn [controller.mark_all]. rewrite Em. cbn [bind].
    apply IH. rewrite length_marked. exact Hes.
Qed.

Lemma mark_all_Err (Extra : Type) (es : list (controller.entity Extra)) :
  forall tokens e, controller.mark_all Extra tokens es = Err e -> e = IndexError.
Proof.
  induction es as [|e0 es IH]; intros tokens e E; [discriminate E|].
  cbn [controller.mark_all] in E.
  destruct (entity_fits_dec Extra (length tokens) e0) as [Hf|Hn].
  - destruct e0 as [[[tag p] len] x].
    destruct (mark_fits Extra tokens tag p len x Hf) as (k1 & k2 & _ & _ & _ & _ & Em).
    rewrite Em in E. cbn [bind] in E. exact (IH _ _ E).
  - rewrite (mark_does_not_fit Extra tokens e0 Hn) in E. cbn [bind] in E.
    injection E as <-. reflexivity.
Qed.

Lemma py_getitem_Ok {A : Type} (l : list A) (i : Z) (a : A) :
  py_getitem l i = Ok a ->
  controller.valid_index (length l) i
  /\ ((0 <= i)%Z -> nth_error l (Z.to_nat i) = Some a)
  /\ ((i < 0)%Z -> nth_error l (Z.to_nat (Z.of_nat (length l) + i)) = Some a).
Proof.
  intros E.
  destruct (valid_index_dec (length l) i) as [Hv|Hn];
    [|unfold py_getitem in E; rewrite (py_position_invalid _ _ Hn) in E; discriminate E].
  split; [exact Hv|].
  destruct (py_position_valid _ _ Hv) as (k & P & Lk & K0 & K1).
  unfold py_getitem in E. rewrite P in E.
  destruct (nth_error l k) as [a'|] eqn:En; [|discriminate E]. injection E as <-.
  split; intros Hi.
  - rewrite <- (K0 Hi). exact En.
  - rewrite <- (K1 Hi). exact En.
Qed.

Lemma py_getitem_Err {A : Type} (l : list A) (i : Z) (e : error) :
  py_getitem l i = Err e -> e = IndexError.
Proof.
  unfold py_getitem. intros E.
  destruct (py_position (length l) i) as [k|]; [|injection E as <-; reflexivity].
  destruct (nth_error l k); [discriminate E | injection E as <-; reflexivity].
Qed.

(** * Further properties, one by one *)

(** X1.  On a token matrix [[S, B]] of embeddable ids with at least one
    position the encoder returns the encoder output as [[B, S, 2H]], the
    encoder features as [[S * B, 2H]] and the reduced hidden and cell states
    as [[1, B, H]] each. *)
Theorem X1_encoder_output_shapes
    (V E H S B : nat) (p : Encoder.parameters) (texts : ltensor) :
  (0 < H)%nat -> (0 < S)%nat ->
  lshape texts = [S; B] -> ids_in_range V texts = true ->
  exists x x_out hidden cell,
    Encoder.forward (Encoder.init V E H p) texts = Ok (x, x_out, (hidden, cell))
    /\ shape x = [B; S; (2 * H)%nat]
    /\ shape x_out = [(S * B)%nat; (2 * H)%nat]
    /\ shape hidden = [1%nat; B; H]
    /\ shape cell = [1%nat; B; H].
Proof. intros HH HS Hs Hids. apply Encoder_forward_ok; assumption. Qed.

Lemma X1_encoder_output_shapes_witness :
  exists x x_out hidden cell,
    Encoder.forward (Encoder.init 50 128 256 Zero.encoder) Scenario.texts
    = Ok (x, x_out, (hidden, cell))
    /\ shape x = [2%nat; 5%nat; 512%nat] /\ shape x_out = [10%nat; 512%nat]
    /\ shape hidden = [1%nat; 2%nat; 256%nat] /\ shape cell = [1%nat; 2%nat; 256%nat].
Proof.
  apply (X1_encoder_output_shapes 50 128 256 5 2 Zero.encoder Scenario.texts);
    [lia | lia | reflexivity | reflexivity].
Defined.

(** X2.  The two layouts the encoder returns describe the same positions:
    row [s * B + b] of the encoder features is the linear projection of the
    encoder output of batch element [b] at position [s]. *)
Theorem X2_encoder_features_follow_encoder_out
    (V E H S B : nat) (p : Encoder.parameters) (texts : ltensor) :
  (0 < H)%nat -> (0 < S)%nat ->
  lshape texts = [S; B] -> ids_in_range V texts = true ->
  exists x x_out hidden cell,
    Encoder.forward (Encoder.init V E H p) texts = Ok (x, x_out, (hidden, cell))
    /\ forall s b o, (s < S)%nat -> (b < B)%nat -> (o < 2 * H)%nat ->
         get x_out ((s * B + b) * (2 * H) + o)
         = rsum (2 * H) (fun i => nn.Linear.p_weight (Encoder.linear_p p) o i
                                  * get x ((b * S + s) * (2 * H) + i))
           + nn.Linear.p_bias (Encoder.linear_p p) o.
Proof.
  intros HH HS Hs Hids.
  destruct (Encoder_forward_layout V E H p texts S B HH HS Hs Hids)
    as (emb & y & hn & cn & x & x_out & hidden & cell & _ & _ & Ef & _ & Gxo & _).
  exists x, x_out, hidden, cell. split; [exact Ef | exact Gxo].
Qed.

Lemma X2_encoder_features_follow_encoder_out_witness :
  exists x x_out hidden cell,
    Encoder.forward (Encoder.init 50 128 256 Zero.encoder) Scenario.texts
    = Ok (x, x_out, (hidden, cell))
    /\ get x_out ((3 * 2 + 1) * 512 + 7)
       = rsum 512 (fun i => nn.Linear.p_weight Zero.linear 7%nat i
                            * get x ((1 * 5 + 3) * 512 + i))
         + nn.Linear.p_bias Zero.linear 7%nat.
Proof.
  destruct (X2_encoder_features_follow_encoder_out 50 128 256 5 2 Zero.encoder
              Scenario.texts) as (x & x_out & hidden & cell & Ef & G);
    [lia | lia | reflexivity | reflexivity |].
  exists x, x_out, hidden, cell. split; [exact Ef|].
  apply (G 3%nat 1%nat 7%nat); lia.
Defined.

(** X3.  The reduced hidden (cell) state of batch element [b] is the ReLU of
    the linear projection of the final forward-direction and
    backward-direction hidden (cell) states of that same element, joined:
    the transpose before the view keeps the two directions of one element
    together. *)
Theorem X3_reduced_state_joins_directions
    (V E H S B : nat) (p : Encoder.parameters) (texts : ltensor) :
  (0 < H)%nat -> (0 < S)%nat ->
  lshape texts = [S; B] -> ids_in_range V texts = true ->
  exists emb y hn cn x x_out hidden cell,
    nn.Embedding.forward (Encoder.embedding (Encoder.init V E H p)) texts = Ok emb
    /\ nn.LSTM.forward (Encoder.lstm (Encoder.init V E H p)) emb None = Ok (y, (hn, cn))
    /\ Encoder.forward (Encoder.init V E H p) texts = Ok (x, x_out, (hidden, cell))
    /\ (forall b o, (b < B)%nat -> (o < H)%nat ->
          get hidden (b * H + o)
          = Rmax 0 (rsum (2 * H) (fun k => nn.Linear.p_weight (Encoder.reduce_hidden_p p) o k
                                           * both_directions H B hn b k)
                    + nn.Linear.p_bias (Encoder.reduce_hidden_p p) o))
    /\ (forall b o, (b < B)%nat -> (o < H)%nat ->
          get cell (b * H + o)
          = Rmax 0 (rsum (2 * H) (fun k => nn.Linear.p_weight (Encoder.reduce_cell_p p) o k
                                           * both_directions H B cn b k)
                    + nn.Linear.p_bias (Encoder.reduce_cell_p p) o)).
Proof.
  intros HH HS Hs Hids.
  destruct (Encoder_forward_layout V E H p texts S B HH HS Hs Hids)
    as (emb & y & hn & cn & x & x_out & hidden & cell & Ee & El & Ef & _ & _ & Gh & Gc).
  exists emb, y, hn, cn, x, x_out, hidden, cell.
  split; [exact Ee|]. split; [exact El|]. split; [exact Ef|]. split; assumption.
Qed.

Lemma X3_reduced_state_joins_directions_witness :
  exists hn cn x x_out hidden cell,
    Encoder.forward (Encoder.init 50 128 256 Zero.encoder) Scenario.texts
    = Ok (x, x_out, (hidden, cell))
    /\ get hidden (1 * 256 + 4)
       = Rmax 0 (rsum 512 (fun k => nn.Linear.p_weight Zero.linear 4%nat k
                                    * both_directions 256 2 hn 1 k)
                 + nn.Linear.p_bias Zero.linear 4%nat)
    /\ get cell (1 * 256 + 4)
       = Rmax 0 (rsum 512 (fun k => nn.Linear.p_weight Zero.linear 4%nat k
                                    * both_directions 256 2 cn 1 k)
                 + nn.Linear.p_bias Zero.linear 4%nat).
Proof.
  destruct (X3_reduced_state_joins_directions 50 128 256 5 2 Zero.encoder Scenario.texts)
    as (emb & y & hn & cn & x & x_out & hidden & cell & _ & _ & Ef & Gh & Gc);
    [lia | lia | reflexivity | reflexivity |].
  exists hn, cn, x, x_out, hidden, cell. split; [exact Ef|].
  split; [apply (Gh 1%nat 4%nat); lia | apply (Gc 1%nat 4%nat); lia].
Defined.

(** X4.  On operands of a batch of the configured size, one decoder step
    returns a vocabulary matrix [[B, V]], the packed state and the context
    as [[B, 2H]], and attention weights and coverage as [[S, B]]; the
    coverage it returns is the coverage it was given plus the attention
    weights of this step, entry by entry. *)
Theorem X4_decoder_output_shapes
    (V B E H S : nat) (p : Decoder.parameters) (x_in : ltensor)
    (hidden_in : tensor * tensor) (eo ef ctx cov : tensor) :
  (0 < H)%nat -> (0 < B)%nat -> (0 < S)%nat ->
  decoder_operands V B H S x_in hidden_in eo ef ctx cov ->
  exists x h context a cov',
    Decoder.forward (Decoder.init V B E H p) x_in hidden_in eo ef ctx cov
    = Ok (x, h, context, a, cov')
    /\ shape x = [B; V]
    /\ shape h = [B; (2 * H)%nat]
    /\ shape context = [B; (2 * H)%nat]
    /\ shape a = [S; B]
    /\ shape cov' = [S; B]
    /\ forall k, (k < S * B)%nat -> get cov' k = get cov k + get a k.
Proof.
  intros HH HB HS Hop.
  destruct (Decoder_forward_ok V B E H S p x_in hidden_in eo ef ctx cov HH HB HS Hop)
    as ([[[[x h] context] a] cov'] & Ed & [Sx _ Sh Sc Sa _ Scov Gcov]).
  exists x, h, context, a, cov'.
  split; [exact Ed|]. split; [exact Sx|]. split; [exact Sh|]. split; [exact Sc|].
  split; [exact Sa|]. split; [exact Scov | exact Gcov].
Qed.

Lemma X4_decoder_output_shapes_witness :
  exists x h context a cov',
    Decoder.forward (Decoder.init 50 2 128 256 Zero.decoder) (mkL [2%nat] [1; 1]%Z)
      (torch.zeros [1; 2; 256]%nat, torch.zeros [1; 2; 256]%nat)
      (torch.zeros [2; 5; 512]%nat) (torch.zeros [10; 512]%nat)
      (torch.zeros [2; 512]%nat) (torch.zeros [5; 2]%nat)
    = Ok (x, h, context, a, cov')
    /\ shape x = [2; 50]%nat
    /\ shape h = [2; 512]%nat
    /\ shape context = [2; 512]%nat
    /\ shape a = [5; 2]%nat
    /\ shape cov' = [5; 2]%nat
    /\ forall k, (k < 5 * 2)%nat -> get cov' k = get (torch.zeros [5; 2]%nat) k + get a k.
Proof.
  apply (X4_decoder_output_shapes 50 2 128 256 5 Zero.decoder); [lia | lia | lia |].
  constructor; reflexivity.
Defined.

(** X5.  The context vector [attend] returns for batch element [b] is the
    mean of the encoder outputs of [b] over the source positions, weighted
    by the attention of [b]; so each of its entries lies between any bounds
    of that entry of the encoder outputs of [b]. *)
Theorem X5_context_is_weighted_mean
    (H B : nat) (p : Attention.parameters) (hidden eo ef cov : tensor) (S : nat) :
  (0 < H)%nat -> (0 < B)%nat -> (0 < S)%nat ->
  shape hidden = [B; (2 * H)%nat] -> shape eo = [B; S; (2 * H)%nat] ->
  shape ef = [(S * B)%nat; (2 * H)%nat] -> shape cov = [S; B] ->
  exists context a cov',
    Attention.forward (Attention.init H B p) hidden eo ef cov = Ok (context, a, cov')
    /\ (forall b j, (b < B)%nat -> (j < 2 * H)%nat ->
          get context (b * (2 * H) + j)
          = rsum S (fun s => get a (s * B + b) * get eo ((b * S + s) * (2 * H) + j)))
    /\ (forall b j lo hi, (b < B)%nat -> (j < 2 * H)%nat ->
          (forall s, (s < S)%nat -> lo <= get eo ((b * S + s) * (2 * H) + j) <= hi) ->
          lo <= get context (b * (2 * H) + j) <= hi).
Proof.
  intros HH HB HS Sh Seo Sef Scov.
  destruct (Attention_forward_context H B p hidden eo ef cov S HH HB HS Sh Seo Sef Scov)
    as (context & a & cov' & Ef & Gc).
  destruct (Attention_forward_ok H B p hidden eo ef cov S HH HB HS Sh Seo Sef Scov)
    as (context2 & a2 & cov2 & x & sc & Ef2 & _ & _ & _ & _ & _ & Ga & _ & _).
  rewrite Ef in Ef2. injection Ef2 as <- <- <-.
  exists context, a, cov'. split; [exact Ef|]. split; [exact Gc|].
  intros b j lo hi Hb Hj Hbound. rewrite (Gc b j Hb Hj).
  apply convex_combination_bounds.
  - intros s Hs. apply Rlt_le.
    apply (softmax_columns_pos S B sc a); [exact Ga | apply idx_lt; assumption].
  - apply (softmax_columns_sum S B sc a b Ga HS Hb).
  - exact Hbound.
Qed.

Lemma X5_context_is_weighted_mean_witness :
  exists context a cov',
    Attention.forward (Attention.init 256 2 Zero.attention) (torch.zeros [2; 512]%nat)
      (torch.zeros [2; 5; 512]%nat) (torch.zeros [10; 512]%nat) (torch.zeros [5; 2]%nat)
    = Ok (context, a, cov')
    /\ get context (1 * (2 * 256) + 3)
       = rsum 5 (fun s => get a (s * 2 + 1)
                          * get (torch.zeros [2; 5; 512]%nat) ((1 * 5 + s) * (2 * 256) + 3)).
Proof.
  destruct (X5_context_is_weighted_mean 256 2 Zero.attention (torch.zeros [2; 512]%nat)
              (torch.zeros [2; 5; 512]%nat) (torch.zeros [10; 512]%nat)
              (torch.zeros [5; 2]%nat) 5)
    as (context & a & cov' & Ef & Gc & _);
    [lia | lia | lia | reflexivity | reflexivity | reflexivity | reflexivity |].
  exists context, a, cov'. split; [exact Ef|].
  apply (Gc 1%nat 3%nat); lia.
Defined.








Lemma in_firstn_seq (n len : nat) :
  forall a i, In i (firstn n (seq a len)) -> (a <= i < a + n)%nat.
Proof.
  revert len. induction n as [|n IH]; intros len a i Hi.
  - destruct Hi.
  - destruct len as [|len]; [destruct Hi|].
    cbn [seq firstn] in Hi. destruct Hi as [<-|Hi]; [lia|].
    apply IH in Hi. lia.
Qed.

(** X9.  An invocation reads the target tokens only through the rows
    [summaries[0]] .. [summaries[max_summary_length - 1]]: two targets that
    agree on these rows give the same result, whatever rows follow. *)
Theorem X9_forward_reads_only_first_rows
    (m : PointerGeneratorNetwork.t) (texts s1 s2 : ltensor) :
  (forall i, (i < PointerGeneratorNetwork.max_summary_length m)%nat ->
             torch.row s1 i = torch.row s2 i) ->
  PointerGeneratorNetwork.forward m texts s1 = PointerGeneratorNetwork.forward m texts s2.
Proof.
  intros Hrows. rewrite !forward_from_calls.
  unfold PointerGeneratorNetwork.forward_calls.
  destruct (Encoder.forward (PointerGeneratorNetwork.encoder m) texts)
    as [[[eo ef] hidden]|e]; cbn [bind]; [|reflexivity].
  rewrite (calls_agree m s1 s2 hidden eo ef
             (seq 0 (PointerGeneratorNetwork.max_summary_length m))).
  - reflexivity.
  - intros i Hi. apply in_seq in Hi. apply Hrows. lia.
Qed.

Lemma X9_forward_reads_only_first_rows_witness :
  PointerGeneratorNetwork.forward Scenario.model Scenario.texts Scenario.summaries
  = PointerGeneratorNetwork.forward Scenario.model Scenario.texts Variation.extra_row.
Proof.
  apply (X9_forward_reads_only_first_rows Scenario.model Scenario.texts
           Scenario.summaries Variation.extra_row).
  intros i Hi. cbn in Hi.
  destruct i as [|[|[|i]]]; [reflexivity | reflexivity | reflexivity | lia].
Defined.

(** X10.  Decoding is causal in the target tokens: when two invocations on
    the same source return, and their targets agree on the first [n] rows,
    the first [n] vocabulary distributions, attention weights and coverages
    they return are the same. *)
Theorem X10_forward_prefix_causal
    (m : PointerGeneratorNetwork.t) (texts s1 s2 : ltensor) (n : nat)
    (o1 a1 c1 o2 a2 c2 : list tensor) :
  PointerGeneratorNetwork.forward m texts s1 = Ok (o1, a1, c1) ->
  PointerGeneratorNetwork.forward m texts s2 = Ok (o2, a2, c2) ->
  (forall i, (i < n)%nat -> torch.row s1 i = torch.row s2 i) ->
  firstn n o1 = firstn n o2 /\ firstn n a1 = firstn n a2 /\ firstn n c1 = firstn n c2.
Proof.
  intros E1 E2 Hrows.
  rewrite forward_from_calls in E1, E2.
  apply bind_Ok in E1. destruct E1 as (cs1 & Ec1 & E1). injection E1 as <- <- <-.
  apply bind_Ok in E2. destruct E2 as (cs2 & Ec2 & E2). injection E2 as <- <- <-.
  unfold PointerGeneratorNetwork.forward_calls in Ec1, Ec2.
  destruct (Encoder.forward (PointerGeneratorNetwork.encoder m) texts)
    as [[[eo ef] hidden]|e]; cbn [bind] in Ec1, Ec2; [|discriminate Ec1].
  assert (Hcs : firstn n cs1 = firstn n cs2).
  { eapply calls_prefix_agree; [|exact Ec1 | exact Ec2].
    intros i Hi. apply in_firstn_seq in Hi. apply Hrows. lia. }
  rewrite !firstn_map, Hcs. repeat split.
Qed.

Lemma X10_forward_prefix_causal_witness :
  exists o1 a1 c1 o2 a2 c2,
    PointerGeneratorNetwork.forward Scenario.model Scenario.texts Scenario.summaries
    = Ok (o1, a1, c1)
    /\ PointerGeneratorNetwork.forward Scenario.model Scenario.texts Variation.other_last_row
       = Ok (o2, a2, c2)
    /\ firstn 2 o1 = firstn 2 o2 /\ firstn 2 a1 = firstn 2 a2
    /\ firstn 2 c1 = firstn 2 c2.
Proof.
  destruct (invocation_spec 50 2 3 128 256 3 5 Zero.network
              Scenario.texts Scenario.summaries)
    as (h1 & cs1 & _ & E1 & _); [valid_by_computation|].
  destruct (invocation_spec 50 2 3 128 256 3 5 Zero.network
              Scenario.texts Variation.other_last_row)
    as (h2 & cs2 & _ & E2 & _); [valid_by_computation|].
  eexists _, _, _, _, _, _.
  split; [exact E1|]. split; [exact E2|].
  apply (X10_forward_prefix_causal Scenario.model Scenario.texts Scenario.summaries
           Variation.other_last_row 2 _ _ _ _ _ _ E1 E2).
  intros i Hi. destruct i as [|[|i]]; [reflexivity | reflexivity | lia].
Defined.

(** X11.  A source token id outside [0 .. vocab_size - 1] makes the
    invocation raise [IndexError], at the embedding of the encoder, whatever
    the targets are. *)
Theorem X11_forward_bad_source_id
    (V B L E H : nat) (p : PointerGeneratorNetwork.parameters)
    (texts summaries : ltensor) :
  ids_in_range V texts = false ->
  PointerGeneratorNetwork.forward (PointerGeneratorNetwork.init V B L E H p)
    texts summaries = Err IndexError.
Proof.
  intros Hbad.
  unfold PointerGeneratorNetwork.forward, Encoder.forward, nn.Embedding.forward.
  cbn [PointerGeneratorNetwork.encoder PointerGeneratorNetwork.init
       Encoder.embedding Encoder.init].
  unfold ids_in_range in Hbad.
  change (forallb (nn.Embedding.in_range
                     (nn.Embedding.mk V E
                        (Encoder.embedding_weight (PointerGeneratorNetwork.encoder_p p))))
            (ldata texts))
    with (forallb (fun z => ((0 <=? z)%Z && (z <? Z.of_nat V)%Z)%bool) (ldata texts)).
  rewrite Hbad. reflexivity.
Qed.

Lemma X11_forward_bad_source_id_witness :
  PointerGeneratorNetwork.forward Scenario.model Variation.bad_source Scenario.summaries
  = Err IndexError.
Proof.
  apply (X11_forward_bad_source_id 50 2 3 128 256 Zero.network
           Variation.bad_source Scenario.summaries).
  reflexivity.
Defined.






(** X14.  [run] does not check the batch dimension of its inputs against
    the configured [batch_size]: with valid tokens of another batch size the
    encoder runs, and the first decoder step raises a shape error where the
    zero context [[batch_size, 2H]] is concatenated with the embedded
    target row. *)
Theorem X14_forward_batch_mismatch
    (V B B' L E H T N : nat) (p : PointerGeneratorNetwork.parameters)
    (texts summaries : ltensor) :
  (0 < H)%nat -> (0 < N)%nat -> (0 < B')%nat -> (0 < L)%nat -> (0 < T)%nat ->
  token_matrix V N B' texts -> token_matrix V T B' summaries -> B' <> B ->
  (exists eo ef hidden,
     Encoder.forward
       (PointerGeneratorNetwork.encoder (PointerGeneratorNetwork.init V B L E H p)) texts
     = Ok (eo, ef, hidden))
  /\ PointerGeneratorNetwork.forward (PointerGeneratorNetwork.init V B L E H p)
       texts summaries = Err ShapeError.
Proof.
  intros HH HN HB' HL HT [Sx Lx Rx] Hsum Hne.
  destruct (Encoder_forward_ok V E H (PointerGeneratorNetwork.encoder_p p) texts N B'
              HH HN Sx Rx) as (eo & ef & h & cl & Ee & Seo & Sef & Sh & Sc).
  change (Encoder.init V E H (PointerGeneratorNetwork.encoder_p p))
    with (PointerGeneratorNetwork.encoder (PointerGeneratorNetwork.init V B L E H p)) in Ee.
  split; [exists eo, ef, (h, cl); exact Ee|].
  rewrite forward_from_calls. unfold PointerGeneratorNetwork.forward_calls.
  rewrite Ee. cbn [bind].
  cbn [PointerGeneratorNetwork.max_summary_length PointerGeneratorNetwork.batch_size
       PointerGeneratorNetwork.hidden_size PointerGeneratorNetwork.init].
  destruct L as [|L]; [lia|].
  cbn [seq PointerGeneratorNetwork.calls].
  destruct (row_in_range V T B' summaries 0 Hsum HT) as (x_in & Er & Sr & Lr & Rr).
  rewrite Er. cbn [bind].
  unfold Decoder.forward.
  destruct (Embedding_ok
              (Decoder.embedding
                 (PointerGeneratorNetwork.decoder
                    (PointerGeneratorNetwork.init V B (S L) E H p))) x_in)
    as (x0 & E0 & S0); [exact Rr|].
  rewrite E0. cbn [bind]. rewrite Sr in S0. cbn in S0.
  rewrite (cat1_rows_mismatch (torch.zeros [B; (2 * H)%nat]) x0 B (2 * H) B' E);
    [reflexivity | reflexivity | exact S0 | congruence].
Qed.

Lemma X14_forward_batch_mismatch_witness :
  (exists eo ef hidden,
     Encoder.forward (PointerGeneratorNetwork.encoder Scenario.model) Variation.texts3
     = Ok (eo, ef, hidden))
  /\ PointerGeneratorNetwork.forward Scenario.model Variation.texts3 Variation.summaries3
     = Err ShapeError.
Proof.
  apply (X14_forward_batch_mismatch 50 2 3 3 128 256 3 2 Zero.network
           Variation.texts3 Variation.summaries3);
    [lia | lia | lia | lia | lia | constructor; reflexivity | constructor; reflexivity | lia].
Defined.

(** What a returning [show_article] did: it picked an article, marked every
    entity of it in the tokens of its content, and joined the tokens. *)
Lemma show_article_Ok (Content Extra : Type)
    (tokenize : Content -> list String.string)
    (articles : list (controller.article Content Extra)) (article_index : Z)
    (a : controller.article Content Extra) (content : String.string) :
  controller.show_article Content Extra tokenize articles article_index = Ok (a, content) ->
  exists tokens',
    py_getitem articles (article_index - 1) = Ok a
    /\ controller.mark_all Extra (tokenize (controller.content Content Extra a))
         (controller.named_entities Content Extra a) = Ok tokens'
    /\ content = String.concat controller.space tokens'.
Proof.
  intros E. unfold controller.show_article in E.
  apply bind_Ok in E. destruct E as (a' & Ea & E).
  apply bind_Ok in E. destruct E as (tokens' & Em & E).
  injection E as <- <-.
  exists tokens'. split; [exact Ea|]. split; [exact Em | reflexivity].
Qed.

(** X15.  The content [show_article] renders is the tokens of the article
    joined by single spaces, each token kept in its place and at most
    wrapped in added text: no token is dropped, added, reordered or cut. *)
Theorem X15_highlight_only_wraps (Content Extra : Type)
    (tokenize : Content -> list String.string)
    (articles : list (controller.article Content Extra)) (article_index : Z)
    (a : controller.article Content Extra) (content : String.string) :
  controller.show_article Content Extra tokenize articles article_index = Ok (a, content) ->
  exists tokens',
    content = String.concat controller.space tokens'
    /\ length tokens' = length (tokenize (controller.content Content Extra a))
    /\ Forall2 controller.wrapped (tokenize (controller.content Content Extra a)) tokens'.
Proof.
  intros E.
  destruct (show_article_Ok Content Extra tokenize articles article_index a content E)
    as (tokens' & _ & Em & Ec).
  destruct (mark_all_Ok Extra _ _ _ Em) as (Hl & Hw & _ & _).
  exists tokens'. split; [exact Ec|]. split; [exact Hl | exact Hw].
Qed.

Lemma X15_highlight_only_wraps_witness :
  exists tokens',
    Newsroom.highlighted = String.concat controller.space tokens'
    /\ length tokens' = length (Newsroom.tokenizer (controller.content _ _ Newsroom.first))
    /\ Forall2 controller.wrapped
         (Newsroom.tokenizer (controller.content _ _ Newsroom.first)) tokens'.
Proof.
  apply (X15_highlight_only_wraps (list String.string) unit Newsroom.tokenizer
           Newsroom.articles 1 Newsroom.first Newsroom.highlighted).
  reflexivity.
Defined.

(** X16.  Highlighting lengthens the content by exactly 20 characters plus
    the length of the tag for every named entity of the article. *)
Theorem X16_highlight_content_length (Content Extra : Type)
    (tokenize : Content -> list String.string)
    (articles : list (controller.article Content Extra)) (article_index : Z)
    (a : controller.article Content Extra) (content : String.string) :
  controller.show_article Content Extra tokenize articles article_index = Ok (a, content) ->
  String.length content
  = (String.length
       (String.concat controller.space (tokenize (controller.content Content Extra a)))
     + controller.markup_length (controller.named_entities Content Extra a))%nat.
Proof.
  intros E.
  destruct (show_article_Ok Content Extra tokenize articles article_index a content E)
    as (tokens' & _ & Em & ->).
  destruct (mark_all_Ok Extra _ _ _ Em) as (Hl & _ & Ht & _).
  rewrite !join_length, Hl, Ht. lia.
Qed.

Lemma X16_highlight_content_length_witness :
  String.length Newsroom.highlighted
  = (String.length
       (String.concat controller.space
          (Newsroom.tokenizer (controller.content _ _ Newsroom.first)))
     + controller.markup_length (controller.named_entities _ _ Newsroom.first))%nat.
Proof.
  apply (X16_highlight_content_length (list String.string) unit Newsroom.tokenizer
           Newsroom.articles 1 Newsroom.first Newsroom.highlighted).
  reflexivity.
Defined.

(** X17.  One pass of the loop over an entity whose two positions are valid
    indices puts [<strong>] in front of the token at [position] and
    [ (tag)</strong>] behind the token at [position + length - 1], read as
    Python indices, and leaves every other token as it was. *)
Theorem X17_mark_entity (Extra : Type) (tokens : list String.string)
    (tag : String.string) (position len : Z) (x : Extra) :
  controller.entity_fits (length tokens) (tag, position, len, x) ->
  exists k1 k2 tokens',
    py_position (length tokens) position = Some k1
    /\ py_position (length tokens) (position + len - 1) = Some k2
    /\ controller.mark Extra tokens (tag, position, len, x) = Ok tokens'
    /\ length tokens' = length tokens
    /\ forall i,
         nth i tokens' String.EmptyString
         = (if (i =? k1)%nat then controller.open_tag else String.EmptyString)
           +++ nth i tokens String.EmptyString
           +++ (if (i =? k2)%nat then controller.close_tag tag else String.EmptyString).
Proof.
  intros Hf.
  destruct (mark_fits Extra tokens tag position len x Hf)
    as (k1 & k2 & P1 & P2 & L1 & L2 & Em).
  exists k1, k2, (controller.marked tokens tag k1 k2).
  split; [exact P1|]. split; [exact P2|]. split; [exact Em|].
  split; [apply length_marked|].
  intros i. apply nth_marked; assumption.
Qed.

Lemma X17_mark_entity_witness :
  exists k1 k2 tokens',
    py_position 4 0 = Some k1
    /\ py_position 4 (0 + 2 - 1) = Some k2
    /\ controller.mark unit (controller.content _ _ Newsroom.first)
         (Newsroom.person, 0%Z, 2%Z, tt) = Ok tokens'
    /\ length tokens' = 4%nat
    /\ nth 1 tokens' String.EmptyString
       = (if (1 =? k1)%nat then controller.open_tag else String.EmptyString)
         +++ nth 1 (controller.content _ _ Newsroom.first) String.EmptyString
         +++ (if (1 =? k2)%nat then controller.close_tag Newsroom.person
              else String.EmptyString).
Proof.
  destruct (X17_mark_entity unit (controller.content _ _ Newsroom.first)
              Newsroom.person 0 2 tt)
    as (k1 & k2 & tokens' & P1 & P2 & Em & Hl & Hn).
  - unfold controller.entity_fits, controller.valid_index. cbn. lia.
  - exists k1, k2, tokens'.
    split; [exact P1|]. split; [exact P2|]. split; [exact Em|].
    split; [exact Hl | apply Hn].
Defined.

(** X18.  From the value of [int(article_index)] on, [show_article] renders
    a page exactly when [article_index - 1] is a valid index into the
    articles and both positions of every named entity of the chosen article
    are valid indices into its tokens; otherwise it raises [IndexError],
    and nothing else. *)
Theorem X18_show_article_raises_iff (Content Extra : Type)
    (tokenize : Content -> list String.string)
    (articles : list (controller.article Content Extra)) (article_index : Z) :
  ((exists r, controller.show_article Content Extra tokenize articles article_index = Ok r)
   <-> exists a,
         py_getitem articles (article_index - 1) = Ok a
         /\ Forall (controller.entity_fits
                      (length (tokenize (controller.content Content Extra a))))
              (controller.named_entities Content Extra a))
  /\ (forall e,
        controller.show_article Content Extra tokenize articles article_index = Err e ->
        e = IndexError)
  /\ (~ controller.valid_index (length articles) (article_index - 1) ->
      controller.show_article Content Extra tokenize articles article_index
      = Err IndexError).
Proof.
  split; [split|split].
  - intros ([a content] & E).
    destruct (show_article_Ok Content Extra tokenize articles article_index a content E)
      as (tokens' & Ea & Em & _).
    exists a. split; [exact Ea|].
    exact (proj2 (proj2 (proj2 (mark_all_Ok Extra _ _ _ Em)))).
  - intros (a & Ea & Hf).
    destruct (mark_all_fits Extra _ _ Hf) as (tokens' & Em).
    exists (a, String.concat controller.space tokens').
    unfold controller.show_article. rewrite Ea. cbn [bind]. rewrite Em. reflexivity.
  - intros e E. unfold controller.show_article in E.
    destruct (py_getitem articles (article_index - 1)) as [a|e0] eqn:Ea; cbn [bind] in E.
    + destruct (controller.mark_all Extra (tokenize (controller.content Content Extra a))
                  (controller.named_entities Content Extra a)) as [t|e1] eqn:Em;
        cbn [bind] in E; [discriminate E|].
      injection E as <-. exact (mark_all_Err Extra _ _ _ Em).
    + injection E as <-. exact (py_getitem_Err _ _ _ Ea).
  - intros Hn. unfold controller.show_article, py_getitem.
    rewrite (py_position_invalid _ _ Hn). reflexivity.
Qed.

(** X19.  Article numbers count from 1, and 0 and negative numbers count
    from the end: for [-n < article_index <= 0] with [n] articles the page
    is that of article [article_index + n]; so [/article/0] shows the last
    article. *)
Theorem X19_show_article_counts_from_end (Content Extra : Type)
    (tokenize : Content -> list String.string)
    (articles : list (controller.article Content Extra)) (article_index : Z) :
  (- Z.of_nat (length articles) < article_index <= 0)%Z ->
  controller.show_article Content Extra tokenize articles article_index
  = controller.show_article Content Extra tokenize articles
      (article_index + Z.of_nat (length articles)).
Proof.
  intros Hi. unfold controller.show_article, py_getitem.
  assert (P1 : py_position (length articles) (article_index - 1)
               = Some (Z.to_nat (Z.of_nat (length articles) + (article_index - 1)))).
  { unfold py_position.
    destruct (Z.leb_spec 0 (article_index - 1)) as [H0|H0]; [lia|]. cbn [andb].
    destruct (Z.leb_spec (- Z.of_nat (length articles)) (article_index - 1));
      destruct (Z.ltb_spec (article_index - 1) 0); cbn [andb]; try lia. reflexivity. }
  assert (P2 : py_position (length articles)
                 (article_index + Z.of_nat (length articles) - 1)
               = Some (Z.to_nat (article_index + Z.of_nat (length articles) - 1))).
  { unfold py_position.
    destruct (Z.leb_spec 0 (article_index + Z.of_nat (length articles) - 1));
      destruct (Z.ltb_spec (article_index + Z.of_nat (length articles) - 1)
                  (Z.of_nat (length articles))); cbn [andb]; try lia. reflexivity. }
  rewrite P1, P2.
  replace (Z.of_nat (length articles) + (article_index - 1))%Z
    with (article_index + Z.of_nat (length articles) - 1)%Z by lia.
  reflexivity.
Qed.

Lemma X19_show_article_counts_from_end_witness :
  controller.show_article (list String.string) unit Newsroom.tokenizer Newsroom.articles 0
  = controller.show_article (list String.string) unit Newsroom.tokenizer Newsroom.articles
      (0 + Z.of_nat (length Newsroom.articles)).
Proof.
  apply (X19_show_article_counts_from_end (list String.string) unit Newsroom.tokenizer
           Newsroom.articles 0).
  cbn. lia.
Defined.
